(** * OpenPNM: the [Imported] geometry and the HDF5 exporter

    A shallow embedding of [openpnm/geometry/_imported.py] and
    [openpnm/io/_hdf5.py].  Python dictionaries that are only looked up,
    written and popped are finite maps; the flat dictionary the exporter
    iterates over keeps its insertion order and is an association list.
    Exceptions and the logger are explicit: every operation returns an
    [outcome] that carries the state reached, also when it raises. *)

From Stdlib Require Import Ascii DecimalString.
From stdpp Require Import gmap strings list fin_maps.

(** ** Python string operations *)

Module PyStr.

(** [sep] is a prefix of [s] (the test behind [str.startswith]). *)
Fixpoint startswith (sep s : string) : bool :=
  match sep, s with
  | EmptyString, _ => true
  | String a sep', String b s' => if Ascii.eqb a b then startswith sep' s' else false
  | String _ _, EmptyString => false
  end.

(** [needle in hay]: substring test. *)
Fixpoint contains (needle hay : string) : bool :=
  match hay with
  | EmptyString => startswith needle EmptyString
  | String _ hay' => startswith needle hay || contains needle hay'
  end.

Definition rev_string (cur : list ascii) : string :=
  String.string_of_list_ascii (List.rev cur).

(** [str.split(sep)] for a non-empty [sep]: a left-to-right scan that cuts
    at each occurrence of [sep] and resumes after it.  [skip] counts the
    characters of a matched separator that are still to be passed over,
    [cur] holds the current chunk, last character first. *)
Fixpoint split_go (sep : string) (skip : nat) (cur : list ascii) (s : string)
  : list string :=
  match s with
  | EmptyString => [rev_string cur]
  | String c s' =>
      match skip with
      | S k => split_go sep k cur s'
      | O =>
          if startswith sep s
          then rev_string cur :: split_go sep (String.length sep - 1) [] s'
          else split_go sep 0 (c :: cur) s'
      end
  end.

Definition split (sep s : string) : list string := split_go sep 0 [] s.

(** [sep.join(parts)]. *)
Fixpoint join (sep : string) (parts : list string) : string :=
  match parts with
  | [] => EmptyString
  | [p] => p
  | p :: ps => p +:+ sep +:+ join sep ps
  end.

(** [parts[-1]]; the lists it is applied to come from [split] and are
    never empty. *)
Definition last_part (parts : list string) : string :=
  List.last parts EmptyString.

(** The image of a string, character by character. *)
Fixpoint map_chars (f : ascii → ascii) (s : string) : string :=
  match s with
  | EmptyString => EmptyString
  | String c s' => String (f c) (map_chars f s')
  end.

(** With [map_chars], what [s.replace('.', '_')] does to one character. *)
Definition dot_to_underscore (c : ascii) : ascii :=
  if Ascii.eqb c "." then "_"%char else c.

(** [prepend p parts] puts [p] in front of the first chunk; it describes
    how [split] extends a chunk by the characters before it. *)
Definition prepend (p : string) (parts : list string) : list string :=
  match parts with
  | [] => []
  | h :: t => (p +:+ h) :: t
  end.

End PyStr.

(** ** NumPy arrays, as far as the two modules look at them *)

(** Element types.  [Unicode n] is the fixed-width text type [<Un],
    [Bytes n] is [|Sn], [Object] is the opaque type of arrays of Python
    objects. *)
Inductive dtype : Type :=
  | Bool
  | Int8 | Int16 | Int32 | Int64
  | UInt8 | UInt16 | UInt32 | UInt64
  | Float16 | Float32 | Float64
  | Complex64 | Complex128
  | Bytes (n : nat)
  | Unicode (n : nat)
  | Object.

Definition decimal (n : nat) : string :=
  NilZero.string_of_uint (Nat.to_uint n).

(** [str(dt)] *)
Definition dtype_str (dt : dtype) : string :=
  match dt with
  | Bool => "bool"
  | Int8 => "int8" | Int16 => "int16" | Int32 => "int32" | Int64 => "int64"
  | UInt8 => "uint8" | UInt16 => "uint16" | UInt32 => "uint32" | UInt64 => "uint64"
  | Float16 => "float16" | Float32 => "float32" | Float64 => "float64"
  | Complex64 => "complex64" | Complex128 => "complex128"
  | Bytes n => "|S" +:+ decimal n
  | Unicode n => "<U" +:+ decimal n
  | Object => "object"
  end.

(** [dt == 'O'] *)
Definition is_object (dt : dtype) : bool :=
  match dt with Object => true | _ => false end.

(** [dt == bool]: boolean arrays are labels, all other arrays are
    properties. *)
Definition is_bool (dt : dtype) : bool :=
  match dt with Bool => true | _ => false end.

Inductive scalar : Type :=
  | VBool (b : bool)
  | VInt (z : Z)
  | VFloat (mantissa exponent : Z)
  | VText (s : string)
  | VObject (handle : nat).

Record ndarray : Type := mk_ndarray {
  arr_dtype : dtype;
  arr_shape : list nat;
  arr_data : list scalar
}.

(** [arr[0].dtype]: indexing fails on an array without a first element (a
    first axis of length zero, or no axis at all); otherwise the element
    or row has the array's own element type. *)
Definition first_dtype (arr : ndarray) : option dtype :=
  match arr_shape arr with
  | [] => None
  | O :: _ => None
  | S _ :: _ => Some (arr_dtype arr)
  end.

(** ** Exceptions and the logger *)

Inductive exn : Type :=
  | KeyError (key : string)
  | IndexError
  | AttributeError (module attr : string)
  | ResourceFailure (name : string).

Inductive outcome (St : Type) : Type :=
  | Returned (s : St)
  | Raised (e : exn) (s : St).
Arguments Returned {St} s.
Arguments Raised {St} e s.

Definition state_of {St} (o : outcome St) : St :=
  match o with Returned s => s | Raised _ s => s end.

Definition bind {St} (o : outcome St) (k : St -> outcome St) : outcome St :=
  match o with
  | Returned s => k s
  | Raised e s => Raised e s
  end.

Notation "o >>= k" := (bind o k) (at level 50, left associativity).

(** [for x in xs: body(x)] *)
Fixpoint for_each {A St} (body : A -> St -> outcome St) (xs : list A) (s : St)
  : outcome St :=
  match xs with
  | [] => Returned s
  | x :: xs' => body x s >>= for_each body xs'
  end.

Inductive level : Type := WARNING | ERROR.

Definition log_record : Type := level * string.

(** ** [openpnm/io/_hdf5.py] *)

Module HDF5.

(** The flat dictionary [d = FlatDict(dct, delimiter='/')]: flat paths and
    their leaf arrays, in iteration order.  A dictionary has each key
    once: [NoDup (keys d)]. *)
Definition flatdict : Type := list (string * ndarray).

(** [d.keys()]: a list of the keys, taken before the loop starts. *)
Definition keys (d : flatdict) : list string := map fst d.

(** [d[item]] *)
Fixpoint getitem (d : flatdict) (item : string) : option ndarray :=
  match d with
  | [] => None
  | (k, arr) :: d' => if String.eqb k item then Some arr else getitem d' item
  end.

(** [del d[item]] *)
Definition delitem (d : flatdict) (item : string) : flatdict :=
  List.filter (fun e => negb (String.eqb (fst e) item)) d.

(** A dataset of the output file, as [create_dataset] receives it. *)
Record dataset : Type := mk_dataset {
  ds_name : string;
  ds_shape : list nat;
  ds_dtype : dtype;
  ds_data : list scalar
}.

(** The file [f]: its datasets, in creation order. *)
Definition h5file : Type := list dataset.

Record state : Type := mk_state {
  flat : flatdict;
  file : h5file;
  log : list log_record
}.

(** [tempname = '_'.join(item.split('.'))] *)
Definition sanitize (item : string) : string :=
  PyStr.join "_" (PyStr.split "." item).

Definition object_warning (item : string) : log_record :=
  (WARNING, item +:+ " has dtype object, will not write to file").

Definition dataset_of (item : string) (arr : ndarray) : dataset :=
  mk_dataset ("/" +:+ sanitize item) (arr_shape arr) (arr_dtype arr) (arr_data arr).





(** ['U' in str(dt)] *)
Definition is_text (dt : dtype) : bool := PyStr.contains "U" (dtype_str dt).

(** One storage layer for the examples: like h5py, it refuses a name that
    the file already holds. *)
Definition fresh_name (f : h5file) (ds : dataset) : bool :=
  negb (existsb (fun ds' => String.eqb (ds_name ds') (ds_name ds)) f).

(** An array whose first element can be indexed. *)
Definition indexable (arr : ndarray) : Prop :=
  first_dtype arr = Some (arr_dtype arr).

Section ExportData.

(** The storage layer is not part of the module: [accepts f ds] tells
    whether [f.create_dataset] succeeds for [ds] on the file [f]; when it
    does not, the failure propagates to the caller of [export_data]. *)
Variable accepts : h5file -> dataset -> bool.

Definition create_dataset (ds : dataset) (s : state) : outcome state :=
  if accepts (file s) ds
  then Returned (mk_state (flat s) (file s ++ [ds]) (log s))
  else Raised (ResourceFailure (ds_name ds)) s.

(** The type dispatch on one leaf (lines 82-89), [arr] being [d[item]]. *)
Definition write_leaf (item : string) (arr : ndarray) (s : state)
  : outcome state :=
  if is_object (arr_dtype arr)
  then Returned (mk_state (delitem (flat s) item) (file s)
                          (log s ++ [object_warning item]))
  else
    match first_dtype arr with
    | None => Raised IndexError s
    | Some dt0 =>
        if is_text dt0 then Returned s
        else create_dataset (dataset_of item arr) s
    end.

(** The body of the loop of [export_data] (lines 80-89). *)
Definition export_item (item : string) (s : state) : outcome state :=
  match getitem (flat s) item with
  | None => Raised (KeyError item) s
  | Some arr => write_leaf item arr s
  end.

(** [export_data], from the flat dictionary on (lines 78-90): lines 67-76
    build [d] through [Dict.to_dict] and [FlatDict], which live outside
    the module.  The state reached is the file as it stands, also when
    the loop raises. *)
Definition export_data (d : flatdict) : outcome state :=
  for_each export_item (keys d) (mk_state d [] []).

(** Where the loop stops: the entries before that point have been
    handled, and the first entry left, if any, is the one that raised. *)
Definition stopped_at (o : outcome state) (f : h5file)
    (post : flatdict) : Prop :=
  match o with
  | Returned _ => post = []
  | Raised e _ =>
      ∃ k a post', post = (k, a) :: post'
        ∧ is_object (arr_dtype a) = false
        ∧ ((e = IndexError ∧ first_dtype a = None)
           ∨ (e = ResourceFailure (ds_name (dataset_of k a))
              ∧ indexable a ∧ is_text (arr_dtype a) = false
              ∧ accepts f (dataset_of k a) = false))
  end.

End ExportData.

(** The entries [export_data] writes, and the ones it warns about. *)
Definition writable (e : string * ndarray) : bool :=
  negb (is_object (arr_dtype e.2)) && negb (is_text (arr_dtype e.2)).

Definition datasets_of (d : flatdict) : h5file :=
  map (fun e => dataset_of e.1 e.2) (List.filter writable d).

Definition warnings_of (d : flatdict) : list log_record :=
  map (fun e => object_warning e.1)
      (List.filter (fun e => is_object (arr_dtype e.2)) d).

End HDF5.

(** ** [openpnm/geometry/_imported.py] *)

Module Imported.

(** [ImportedSettings], after [SettingsAttr] has merged the caller's
    settings over the class defaults. *)
Record ImportedSettings : Type := mk_settings {
  pore_diameter : string;
  throat_diameter : string;
  pore_shape : string;
  throat_shape : string;
  exclude_props : list string
}.

Definition default_settings : ImportedSettings :=
  mk_settings "extended_diameter" "inscribed_diameter" "cone" "cylinder" [].

(** A function of [openpnm.models.geometry], named by its module and its
    attribute. *)
Inductive callable : Type := Callable (module attr : string).

(** An entry of the model registry of an object: the function and the
    array names it was given as keyword arguments. *)
Record model_entry : Type := mk_model {
  model : callable;
  kwargs : list (string * string)
}.

(** What the constructor reads and writes: the network's arrays, the new
    geometry's own arrays ([self]) and model registry, the settings
    object (its exclusion list is extended in place) and the logger. *)
Record world : Type := mk_world {
  network : gmap string ndarray;
  self : gmap string ndarray;
  models : gmap string model_entry;
  settings : ImportedSettings;
  log : list log_record
}.

(** Modelled from the spec: [network.props()], defined by a class outside
    the module.  It enumerates the property keys of the container; a
    property is any array that is not boolean-valued, boolean arrays being
    labels. *)
Definition props (net : gmap string ndarray) : list string :=
  (map_to_list (filter (fun kv => is_bool (arr_dtype kv.2) = false) net)).*1.

(** Modelled from the spec: the constructor of [GenericGeometry], defined
    outside the module.  The new container holds no property array yet;
    [self[key]] and [self[key] = arr] are the look-up and the update of
    its mapping. *)
Definition GenericGeometry_init (net : gmap string ndarray)
    (st : ImportedSettings) : world :=
  mk_world net ∅ ∅ st [].

(** [exclude.extend(['pore.coords', 'throat.conns', 'pore.region_label'])] *)
Definition always_excluded : list string :=
  ["pore.coords"; "throat.conns"; "pore.region_label"].

Definition extend_exclude (w : world) : world :=
  let st := settings w in
  mk_world (network w) (self w) (models w)
    (mk_settings (pore_diameter st) (throat_diameter st) (pore_shape st)
                 (throat_shape st) (exclude_props st ++ always_excluded))
    (log w).

(** [if item not in exclude: self[item] = network.pop(item)] *)
Definition transfer_item (item : string) (w : world) : outcome world :=
  if bool_decide (item ∈ exclude_props (settings w)) then Returned w
  else
    match network w !! item with
    | None => Raised (KeyError item) w
    | Some arr =>
        Returned (mk_world (delete item (network w)) (<[item := arr]> (self w))
                           (models w) (settings w) (log w))
    end.

(** Lines 79-83. *)
Definition transfer (w : world) : outcome world :=
  let w1 := extend_exclude w in
  for_each transfer_item (props (network w1)) w1.

(** The geometry and the network once the properties have moved. *)
Definition after_transfer (st : ImportedSettings) (net : gmap string ndarray)
  : world :=
  state_of (transfer (GenericGeometry_init net st)).

(** ['pore.' + setting.split('pore.')[-1]] *)
Definition alias_key (prefix setting : string) : string :=
  prefix +:+ PyStr.last_part (PyStr.split prefix setting).

Definition alias_error (alias canonical : string) : log_record :=
  (ERROR, alias +:+ " not found, can't assign '" +:+ canonical +:+ "'").

(** Lines 87-92 and 106-111: [canonical] is ['pore.diameter'] or
    ['throat.diameter'], [prefix] is ['pore.'] or ['throat.']. *)
Definition assign_diameter (canonical prefix setting : string) (w : world)
  : outcome world :=
  match self w !! canonical with
  | Some _ => Returned w
  | None =>
      let dia := alias_key prefix setting in
      match self w !! dia with
      | Some arr =>
          Returned (mk_world (network w) (<[canonical := arr]> (self w))
                             (models w) (settings w) (log w))
      | None =>
          Returned (mk_world (network w) (self w) (models w) (settings w)
                             (log w ++ [alias_error dia canonical]))
      end
  end.

Definition assign_pore_diameter (w : world) : outcome world :=
  assign_diameter "pore.diameter" "pore." (pore_diameter (settings w)) w.

Definition assign_throat_diameter (w : world) : outcome world :=
  assign_diameter "throat.diameter" "throat." (throat_diameter (settings w)) w.

(** [p_shape + '_and_' + t_shape], with
    [p_shape = settings['pore_shape'] + 's'] and
    [t_shape = settings['throat_shape'] + 's']. *)
Definition shape_pair (st : ImportedSettings) : string :=
  (pore_shape st +:+ "s") +:+ "_and_" +:+ (throat_shape st +:+ "s").

(** Modelled from the spec: [add_model], defined outside the module.  It
    registers a lazily evaluated derived property under [propname];
    nothing is computed and no array is touched. *)
Definition add_model (propname : string) (m : callable)
    (kw : list (string * string)) (w : world) : world :=
  mk_world (network w) (self w) (<[propname := mk_model m kw]> (models w))
           (settings w) (log w).

Section Models.

(** The contents of [openpnm.models.geometry] are not part of the
    module: [has_attr mod name] tells whether the module [mod] defines
    [name]. *)
Variable has_attr : string -> string -> bool.

(** [m = getattr(mods.geometry.<module>, attr)] followed by
    [self.add_model(propname=..., model=m, **kw)]. *)
Definition getattr_add_model (module attr propname : string)
    (kw : list (string * string)) (w : world) : outcome world :=
  if has_attr module attr
  then Returned (add_model propname (Callable module attr) kw w)
  else Raised (AttributeError module attr) w.

(** Lines 115-120. *)
Definition add_throat_length (w : world) : outcome world :=
  match self w !! "throat.length" with
  | Some _ => Returned w
  | None =>
      getattr_add_model "throat_length" (shape_pair (settings w))
        "throat.length"
        [("throat_diameter", "throat.diameter");
         ("pore_diameter", "pore.diameter")] w
  end.

(** Lines 122-128. *)
Definition add_throat_volume (w : world) : outcome world :=
  match self w !! "throat.volume" with
  | Some _ => Returned w
  | None =>
      getattr_add_model "throat_volume" (throat_shape (settings w))
        "throat.volume"
        [("throat_length", "throat.length");
         ("throat_diameter", "throat.diameter")] w
  end.

(** Lines 129-132. *)
Definition add_size_factors (w : world) : outcome world :=
  getattr_add_model "diffusive_size_factors" (shape_pair (settings w))
    "throat.diffusive_size_factors" [] w
  >>= (fun w' =>
  getattr_add_model "hydraulic_size_factors" (shape_pair (settings w'))
    "throat.hydraulic_size_factors" [] w').

(** [Imported.__init__], from the call of the superclass constructor
    on. *)
Definition Imported_init (st : ImportedSettings) (net : gmap string ndarray)
  : outcome world :=
  transfer (GenericGeometry_init net st)
  >>= assign_pore_diameter
  >>= assign_throat_diameter
  >>= add_throat_length
  >>= add_throat_volume
  >>= add_size_factors.

End Models.

(** What a caller can observe of a construction: the exception, if any,
    the arrays left on the network, the arrays and models of the
    geometry, and the log. *)
Definition raised {St} (o : outcome St) : option exn :=
  match o with Returned _ => None | Raised e _ => Some e end.

Definition result (o : outcome world)
  : option exn * gmap string ndarray * gmap string ndarray
    * gmap string model_entry * list log_record :=
  let w := state_of o in
  (raised o, network w, self w, models w, log w).

(** Two settings the constructor cannot tell apart: the same alias keys,
    shapes and exclusion list. *)
Definition same_config (st st' : ImportedSettings) : Prop :=
  alias_key "pore." (pore_diameter st) = alias_key "pore." (pore_diameter st')
  ∧ alias_key "throat." (throat_diameter st)
    = alias_key "throat." (throat_diameter st')
  ∧ pore_shape st = pore_shape st' ∧ throat_shape st = throat_shape st'
  ∧ exclude_props st = exclude_props st'.

Definition sim (w w' : world) : Prop :=
  network w = network w' ∧ self w = self w' ∧ models w = models w'
  ∧ log w = log w' ∧ same_config (settings w) (settings w').

Definition sim_outcome (o o' : outcome world) : Prop :=
  raised o = raised o' ∧ sim (state_of o) (state_of o').

Definition with_pore_diameter (s : string) (st : ImportedSettings)
  : ImportedSettings :=
  mk_settings s (throat_diameter st) (pore_shape st) (throat_shape st)
              (exclude_props st).

Definition with_throat_diameter (s : string) (st : ImportedSettings)
  : ImportedSettings :=
  mk_settings (pore_diameter st) s (pore_shape st) (throat_shape st)
              (exclude_props st).

End Imported.

(** ** [print_hdf5] *)

Module Printing.

(** What a file handle gives access to: a group has [keys()] and members,
    a dataset has none.  The file itself is a group.  The members of a
    group are listed in the order of [f.keys()], each name once. *)
#[warning="-register-all"]
Inductive h5node : Type :=
  | H5Dataset (arr : ndarray)
  | H5Group (members : list (string * h5node)).

Definition newline : string := String "010"%char EmptyString.

(** [s[0]] and [s[-1]]; both fail on the empty string. *)
Definition first_char (s : string) : option ascii :=
  match s with
  | EmptyString => None
  | String c _ => Some c
  end.

Fixpoint last_char (s : string) : option ascii :=
  match s with
  | EmptyString => None
  | String c EmptyString => Some c
  | String _ s' => last_char s'
  end.

(** The nested function [print_level] of [print_hdf5] (lines 106-113).
    [p] is the text built so far; the loop rebinds [p] and [indent].  On a
    dataset [f.keys()] does not exist. *)
Fixpoint print_level (f : h5node) (p indent : string) : outcome string :=
  match f with
  | H5Dataset _ => Raised (AttributeError "Dataset" "keys") p
  | H5Group members =>
      (fix loop (ms : list (string * h5node)) (p indent : string)
         : outcome string :=
         match ms with
         | [] => Returned p
         | (item, child) :: ms' =>
             match child with
             | H5Group _ =>
                 match first_char indent with
                 | None => Raised IndexError p
                 | Some c0 =>
                     match print_level child p (indent +:+ String c0 EmptyString) with
                     | Returned p' =>
                         loop ms' (indent +:+ item +:+ newline +:+ p') indent
                     | Raised e p' => Raised e p'
                     end
                 end
             | H5Dataset _ =>
                 match last_char indent with
                 | None => Raised IndexError p
                 | Some c =>
                     let indent' :=
                       if negb (Ascii.eqb c " ") then indent +:+ "" else indent in
                     loop ms' (indent' +:+ item +:+ newline +:+ p) indent'
                 end
             end
         end) members p indent
  end.

(** The loop of [print_level] by itself, over the members still to
    come. *)
Fixpoint print_members (ms : list (string * h5node)) (p indent : string)
  : outcome string :=
  match ms with
  | [] => Returned p
  | (item, child) :: ms' =>
      match child with
      | H5Group _ =>
          match first_char indent with
          | None => Raised IndexError p
          | Some c0 =>
              match print_level child p (indent +:+ String c0 EmptyString) with
              | Returned p' =>
                  print_members ms' (indent +:+ item +:+ newline +:+ p') indent
              | Raised e p' => Raised e p'
              end
          end
      | H5Dataset _ =>
          match last_char indent with
          | None => Raised IndexError p
          | Some c =>
              let indent' :=
                if negb (Ascii.eqb c " ") then indent +:+ "" else indent in
              print_members ms' (indent' +:+ item +:+ newline +:+ p) indent'
          end
      end
  end.

(** [print_hdf5] (lines 105-117); the state is what has been handed to
    [print].  [f.visit] belongs to the storage library: [visit_names f] are
    the names it hands to its callback. *)
Definition print_hdf5 (visit_names : h5node → list string) (f : h5node)
    (flat : bool) : outcome (list string) :=
  if negb flat then
    match print_level f "" "-" with
    | Returned p => Returned [p]
    | Raised e _ => Raised e []
    end
  else Returned (visit_names f).

(** The indent one level down: [indent + indent[0]]. *)
Definition deeper (indent : string) : string :=
  match first_char indent with
  | Some c0 => indent +:+ String c0 EmptyString
  | None => indent
  end.

(** The lines of the nested view of [f]: the members last to first, each
    with its name after the indent and followed by the lines of its own
    members one level down. *)
Fixpoint listing (f : h5node) (indent : string) : list string :=
  match f with
  | H5Dataset _ => []
  | H5Group ms =>
      concat (rev (map (fun m : string * h5node =>
                          let (item, child) := m in
                          (indent +:+ item) :: listing child (deeper indent))
                       ms))
  end.

(** The text of a list of lines, each closed by a newline. *)
Fixpoint unlines (ls : list string) : string :=
  match ls with
  | [] => EmptyString
  | l :: ls' => l +:+ newline +:+ unlines ls'
  end.

(** The groups and datasets below [f]. *)
Fixpoint descendants (f : h5node) : nat :=
  match f with
  | H5Dataset _ => 0
  | H5Group ms =>
      list_sum (map (fun m : string * h5node =>
                       let (_, child) := m in S (descendants child)) ms)
  end.

(** No dataset stands where [keys()] is asked for: [f] is a group. *)
Definition is_group (f : h5node) : Prop :=
  match f with H5Group _ => True | H5Dataset _ => False end.

End Printing.

(** ** Sample data *)

Module Examples.

Definition diameters : ndarray :=
  mk_ndarray Float64 [3] [VFloat 1 0; VFloat 1 1; VFloat 3 0].

Definition lengths : ndarray :=
  mk_ndarray Float64 [2] [VFloat 5 (-1); VFloat 3 (-1)].

Definition phase_names : ndarray :=
  mk_ndarray (Unicode 5) [3] [VText "solid"; VText "void"; VText "solid"].

Definition handles : ndarray :=
  mk_ndarray Object [3] [VObject 0; VObject 1; VObject 2].

Definition no_floats : ndarray := mk_ndarray Float64 [0] [].

Definition mixed : HDF5.flatdict :=
  [("net_01/pore.diameter", diameters);
   ("net_01/pore.info", handles);
   ("net_01/pore.phase", phase_names);
   ("net_01/throat.length", lengths)].

Definition text_only : HDF5.flatdict :=
  [("net_01/pore.phase", phase_names)].

Definition with_empty : HDF5.flatdict :=
  [("net_01/pore.diameter", diameters);
   ("net_01/pore.seed", no_floats);
   ("net_01/pore.info", handles)].

Definition conns : ndarray :=
  mk_ndarray Int64 [2; 2] [VInt 0; VInt 1; VInt 1; VInt 2].

Definition coords : ndarray :=
  mk_ndarray Float64 [3; 3]
    [VFloat 0 0; VFloat 0 0; VFloat 0 0;
     VFloat 1 0; VFloat 0 0; VFloat 0 0;
     VFloat 1 1; VFloat 0 0; VFloat 0 0].

Definition volumes : ndarray :=
  mk_ndarray Float64 [3] [VFloat 1 0; VFloat 1 3; VFloat 27 0].

Definition labels : ndarray :=
  mk_ndarray Int64 [3] [VInt 1; VInt 2; VInt 3].

Definition factors : ndarray :=
  mk_ndarray Float64 [2] [VFloat 1 (-2); VFloat 3 (-2)].

Definition sphere_cuboid : Imported.ImportedSettings :=
  Imported.mk_settings "extended_diameter" "inscribed_diameter"
                       "sphere" "cuboid" [].

Definition all_pores : ndarray :=
  mk_ndarray Bool [3] [VBool true; VBool true; VBool true].

(** An extracted network: topology, a label, and geometrical
    properties. *)
Definition extracted : gmap string ndarray :=
  <["pore.coords" := coords]> (<["throat.conns" := conns]>
  (<["pore.all" := all_pores]> (<["pore.region_label" := labels]>
  (<["pore.volume" := volumes]>
  (<["pore.extended_diameter" := diameters]> ∅))))).

(** The same network when the extraction also delivered size factors. *)
Definition extracted_with_factors : gmap string ndarray :=
  <["throat.diffusive_size_factors" := factors]> extracted.

(** A sample of what [openpnm.models.geometry] may define. *)
Definition sample_models (module attr : string) : bool :=
  bool_decide ((module, attr) ∈
    [("throat_length", "cones_and_cylinders");
     ("throat_length", "spheres_and_cylinders");
     ("throat_length", "cubes_and_cuboids");
     ("throat_volume", "cylinder");
     ("throat_volume", "cuboid");
     ("diffusive_size_factors", "cones_and_cylinders");
     ("diffusive_size_factors", "spheres_and_cylinders");
     ("diffusive_size_factors", "cubes_and_cuboids");
     ("hydraulic_size_factors", "cones_and_cylinders");
     ("hydraulic_size_factors", "spheres_and_cylinders");
     ("hydraulic_size_factors", "cubes_and_cuboids")]).

(** A file with one group, as [export_data] lays it out. *)
Definition net_group : list (string * Printing.h5node) :=
  [("pore_diameter", Printing.H5Dataset diameters);
   ("throat_length", Printing.H5Dataset lengths)].

Definition sample_file : Printing.h5node :=
  Printing.H5Group
    [("net_01", Printing.H5Group net_group);
     ("sim_01", Printing.H5Group [])].

(** A network whose diameters are excluded by the caller. *)
Definition keep_volume : Imported.ImportedSettings :=
  Imported.mk_settings "extended_diameter" "inscribed_diameter"
                       "cone" "cylinder" ["pore.volume"].

End Examples.

(** * Properties *)

(** ** Strings *)

Section StringFacts.

Import PyStr.

Local Arguments String.append !s1 s2 : simpl nomatch.

Lemma str_app_cons c s t : String c s +:+ t = String c (s +:+ t).
Proof. reflexivity. Qed.

Lemma str_app_empty_r s : s +:+ "" = s.
Proof. induction s as [|c s IH]; simpl; [done | by rewrite IH]. Qed.

Lemma str_app_assoc s t u : (s +:+ t) +:+ u = s +:+ t +:+ u.
Proof. induction s as [|c s IH]; simpl; [done | by rewrite IH]. Qed.

Lemma str_length_app s t :
  String.length (s +:+ t) = (String.length s + String.length t)%nat.
Proof. induction s as [|c s IH]; simpl; [done | by rewrite IH]. Qed.

Lemma string_of_list_app l1 l2 :
  String.string_of_list_ascii (l1 ++ l2)
  = String.string_of_list_ascii l1 +:+ String.string_of_list_ascii l2.
Proof. induction l1 as [|c l1 IH]; simpl; [done | by rewrite IH]. Qed.

Lemma rev_string_cons c cur :
  rev_string (c :: cur) = rev_string cur +:+ String c "".
Proof. unfold rev_string. simpl. by rewrite string_of_list_app. Qed.

Lemma startswith_app sep rest : startswith sep (sep +:+ rest) = true.
Proof.
  induction sep as [|a sep IH]; simpl; [done |].
  by rewrite Ascii.eqb_refl.
Qed.

Lemma startswith_inv sep s :
  startswith sep s = true → ∃ rest, s = sep +:+ rest.
Proof.
  revert s. induction sep as [|a sep IH]; intros s H.
  - by exists s.
  - destruct s as [|b s]; simpl in H; [done |].
    destruct (Ascii.eqb_spec a b) as [->|]; [| done].
    destruct (IH _ H) as [rest ->]. by exists rest.
Qed.

Lemma contains_app needle a b : contains needle (a +:+ needle +:+ b) = true.
Proof.
  induction a as [|c a IH]; simpl.
  - destruct (needle +:+ b) eqn:E; simpl.
    + destruct needle; [done | discriminate E].
    + rewrite <- E, startswith_app. done.
  - rewrite IH. apply orb_true_r.
Qed.

Lemma contains_inv needle s :
  contains needle s = true → ∃ a b, s = a +:+ needle +:+ b.
Proof.
  induction s as [|c s IH]; simpl; intros H.
  - destruct (startswith_inv _ _ H) as [b Hb]. by exists "", b.
  - apply orb_true_iff in H as [H | H].
    + destruct (startswith_inv _ _ H) as [b Hb]. by exists "", b.
    + destruct (IH H) as (a & b & ->). by exists (String c a), b.
Qed.

Lemma prepend_prepend a b l : prepend a (prepend b l) = prepend (a +:+ b) l.
Proof. destruct l; simpl; [done | by rewrite str_app_assoc]. Qed.

Lemma split_go_cur sep k cur s :
  split_go sep k cur s = prepend (rev_string cur) (split_go sep k [] s).
Proof.
  revert k cur. induction s as [|c s IH]; intros k cur.
  - simpl. by rewrite str_app_empty_r.
  - destruct k as [|k]; [| apply IH].
    cbn [split_go]. destruct (startswith sep (String c s)).
    + simpl. by rewrite str_app_empty_r.
    + rewrite (IH 0%nat (c :: cur)), (IH 0%nat [c]), prepend_prepend.
      by rewrite rev_string_cons.
Qed.

Lemma split_go_skip sep x cur rest :
  split_go sep (String.length x) cur (x +:+ rest) = split_go sep 0 cur rest.
Proof. induction x as [|c x IH]; simpl; done. Qed.

Lemma split_go_nonempty sep k cur s : split_go sep k cur s ≠ [].
Proof.
  revert k cur. induction s as [|c s IH]; intros k cur; [done |].
  destruct k as [|k]; [| apply IH].
  cbn [split_go]. destruct (startswith sep (String c s)); [done | apply IH].
Qed.

Lemma split_empty sep : split sep "" = [""].
Proof. reflexivity. Qed.

Lemma split_match c sep rest :
  split (String c sep) (String c sep +:+ rest)
  = "" :: split (String c sep) rest.
Proof.
  unfold split. rewrite str_app_cons. cbn [split_go].
  rewrite <- str_app_cons, startswith_app.
  change (rev_string []) with "". f_equal.
  replace (String.length (String c sep) - 1)%nat with (String.length sep)
    by (simpl; lia).
  apply split_go_skip.
Qed.

Lemma split_nomatch sep c s :
  startswith sep (String c s) = false →
  split sep (String c s) = prepend (String c "") (split sep s).
Proof.
  intros H. unfold split. cbn [split_go]. rewrite H.
  by rewrite split_go_cur.
Qed.

Lemma split_head sep s :
  sep ≠ "" →
  (∃ rest, s = sep +:+ rest ∧ split sep s = "" :: split sep rest)
  ∨ (s = "" ∧ split sep s = [""])
  ∨ (∃ c s', s = String c s' ∧ startswith sep s = false
             ∧ split sep s = prepend (String c "") (split sep s')).
Proof.
  intros Hsep. destruct (startswith sep s) eqn:E.
  - left. destruct (startswith_inv _ _ E) as [rest ->]. exists rest.
    split; [done |]. destruct sep as [|c sep]; [done | apply split_match].
  - right. destruct s as [|c s]; [by left |].
    right. exists c, s. split_and!; [done | done | by apply split_nomatch].
Qed.

(** [split] cuts at occurrences of [sep]: either [s] holds none and comes
    back whole, or the last chunk is what follows an occurrence and holds
    none itself. *)
Lemma split_last_spec sep s :
  sep ≠ "" →
  (split sep s = [s] ∧ contains sep s = false)
  ∨ (∃ p r l, split sep s = l ++ [r] ∧ l ≠ []
              ∧ s = p +:+ sep +:+ r ∧ contains sep r = false).
Proof.
  intros Hsep.
  remember (String.length s) as n eqn:Hn.
  revert s Hn. induction (lt_wf n) as [n _ IH]. intros s ->.
  destruct (split_head sep s Hsep)
    as [(rest & -> & Hs) | [[-> Hs] | (c & s' & -> & Hno & Hs)]].
  - assert (Hlt : (String.length rest < String.length (sep +:+ rest))%nat).
    { rewrite str_length_app. destruct sep; [done | simpl; lia]. }
    right. destruct (IH _ Hlt rest eq_refl)
      as [[Hr Hc] | (p & r & l & Hr & Hl & -> & Hc)].
    + exists "", rest, [""]. rewrite Hs, Hr. done.
    + exists (sep +:+ p), r, ("" :: l). rewrite Hs, Hr.
      split_and!; [done | done | by rewrite str_app_assoc | done].
  - left. split; [done |]. destruct sep; done.
  - assert (Hlt : (String.length s' < String.length (String c s'))%nat)
      by (simpl; lia).
    destruct (IH _ Hlt s' eq_refl)
      as [[Hr Hc] | (p & r & l & Hr & Hl & -> & Hc)].
    + left. rewrite Hs, Hr. split; [done |].
      cbn [contains]. by rewrite Hno, Hc.
    + right. exists (String c p), r, (prepend (String c "") l).
      rewrite Hs, Hr.
      split_and!; [by destruct l | by destruct l | done | done].
Qed.

Lemma last_part_snoc l r : last_part (l ++ [r]) = r.
Proof. unfold last_part. apply List.last_last. Qed.

Lemma last_part_cons p l : l ≠ [] → last_part (p :: l) = last_part l.
Proof. destruct l; done. Qed.

End StringFacts.

(** ** Path sanitization *)

Section Sanitize.

Import PyStr HDF5.

Local Arguments String.append !s1 s2 : simpl nomatch.

Lemma join_cons sep p l : l ≠ [] → join sep (p :: l) = p +:+ sep +:+ join sep l.
Proof. destruct l; done. Qed.

Lemma join_split_dot cur s :
  join "_" (split_go "." 0 cur s)
  = rev_string cur +:+ map_chars dot_to_underscore s.
Proof.
  revert cur. induction s as [|c s IH]; intros cur.
  - simpl. by rewrite str_app_empty_r.
  - cbn [split_go startswith map_chars]. unfold dot_to_underscore at 1.
    rewrite (Ascii.eqb_sym c). destruct (Ascii.eqb "." c) eqn:E.
    + destruct s; simpl startswith;
        (rewrite join_cons by apply split_go_nonempty);
        simpl String.length; simpl Nat.sub; rewrite IH; reflexivity.
    + rewrite IH, rev_string_cons, str_app_assoc. reflexivity.
Qed.

(** The sanitized name replaces each ['.'] by ['_'] and keeps every
    other character. *)
Lemma sanitize_chars s : sanitize s = map_chars dot_to_underscore s.
Proof. unfold sanitize, split. by rewrite join_split_dot. Qed.

Lemma map_chars_app f s t : map_chars f (s +:+ t) = map_chars f s +:+ map_chars f t.
Proof. induction s as [|c s IH]; simpl; [done | by rewrite IH]. Qed.

Lemma contains_char_cons a c s :
  contains (String a "") (String c s) = Ascii.eqb a c || contains (String a "") s.
Proof.
  cbn [contains startswith]. destruct (Ascii.eqb a c); [| done].
  by destruct s.
Qed.



End Sanitize.

Section SanitizeClaims.

Import PyStr HDF5.

Local Arguments String.append !s1 s2 : simpl nomatch.

Lemma map_chars_id s :
  contains "." s = false → map_chars dot_to_underscore s = s.
Proof.
  induction s as [|c s IH]; [done |].
  rewrite contains_char_cons. intros H.
  apply orb_false_iff in H as [Hc H]. simpl. rewrite IH by done.
  unfold dot_to_underscore. rewrite Ascii.eqb_sym, Hc. done.
Qed.






End SanitizeClaims.

(** ** The export loop *)

Section ExportLoop.

Import HDF5.

Variable accepts : h5file → dataset → bool.

Lemma getitem_In d k a : NoDup (keys d) → In (k, a) d → getitem d k = Some a.
Proof.
  induction d as [|[k' a'] d IH]; simpl; intros Hnd Hin; [done |].
  apply NoDup_cons in Hnd as [Hk Hnd].
  destruct Hin as [[= -> ->] | Hin].
  - by rewrite String.eqb_refl.
  - destruct (String.eqb_spec k' k) as [-> | _]; [| by apply IH].
    exfalso. apply Hk, list_elem_of_In.
    apply (in_map fst d (k, a)), Hin.
Qed.

Lemma getitem_delitem_ne d item k :
  k ≠ item → getitem (delitem d item) k = getitem d k.
Proof.
  intros Hne. induction d as [|[k' a'] d IH]; simpl; [done |].
  destruct (String.eqb_spec k' item) as [-> | _]; simpl.
  - destruct (String.eqb_spec item k); [congruence | done].
  - by rewrite IH.
Qed.

Lemma first_dtype_Some arr dt : first_dtype arr = Some dt → dt = arr_dtype arr.
Proof. unfold first_dtype. destruct (arr_shape arr) as [|[|n] sh]; congruence. Qed.

(** A step either leaves the flat dictionary alone or deletes its own
    key from it. *)
Lemma write_leaf_flat item arr s s' :
  write_leaf accepts item arr s = Returned s' →
  flat s' = flat s ∨ flat s' = delitem (flat s) item.
Proof.
  unfold write_leaf, create_dataset. intros H.
  repeat case_match; simplify_eq; simpl; auto.
Qed.

(** With each key once, the loop over [d.keys()] with its look-ups is
    the loop over the entries. *)
Lemma export_loop_entries es s :
  NoDup (keys es) →
  (∀ k a, In (k, a) es → getitem (flat s) k = Some a) →
  for_each (export_item accepts) (keys es) s
  = for_each (λ e, write_leaf accepts e.1 e.2) es s.
Proof.
  revert s. induction es as [|[k a] es IH]; intros s Hnd Hget; [done |].
  apply NoDup_cons in Hnd as [Hk Hnd]. simpl.
  unfold export_item at 1. rewrite (Hget k a) by (by left).
  destruct (write_leaf accepts k a s) as [s'|] eqn:E; [| done]. simpl.
  apply IH; [done |]. intros k' a' Hin.
  assert (k' ≠ k).
  { intros ->. apply Hk, list_elem_of_In.
    apply (in_map fst es (k, a')), Hin. }
  destruct (write_leaf_flat _ _ _ _ E) as [-> | ->].
  - apply Hget. by right.
  - rewrite getitem_delitem_ne by done. apply Hget. by right.
Qed.

Lemma export_data_entries d :
  NoDup (keys d) →
  export_data accepts d
  = for_each (λ e, write_leaf accepts e.1 e.2) d (mk_state d [] []).
Proof.
  intros Hnd. apply export_loop_entries; [done |].
  intros k a. by apply getitem_In.
Qed.

Lemma datasets_of_cons e d :
  datasets_of (e :: d)
  = if writable e then dataset_of e.1 e.2 :: datasets_of d else datasets_of d.
Proof. unfold datasets_of. simpl. by destruct (writable e). Qed.

Lemma warnings_of_cons e d :
  warnings_of (e :: d)
  = if is_object (arr_dtype e.2) then object_warning e.1 :: warnings_of d
    else warnings_of d.
Proof. unfold warnings_of. simpl. by destruct (is_object _). Qed.

(** The five ways one leaf can go. *)
Lemma write_leaf_cases item arr s :
  (is_object (arr_dtype arr) = true
   ∧ write_leaf accepts item arr s
     = Returned (mk_state (delitem (flat s) item) (file s)
                          (log s ++ [object_warning item])))
  ∨ (is_object (arr_dtype arr) = false ∧ first_dtype arr = None
     ∧ write_leaf accepts item arr s = Raised IndexError s)
  ∨ (is_object (arr_dtype arr) = false ∧ indexable arr
     ∧ is_text (arr_dtype arr) = true
     ∧ write_leaf accepts item arr s = Returned s)
  ∨ (is_object (arr_dtype arr) = false ∧ indexable arr
     ∧ is_text (arr_dtype arr) = false
     ∧ accepts (file s) (dataset_of item arr) = true
     ∧ write_leaf accepts item arr s
       = Returned (mk_state (flat s) (file s ++ [dataset_of item arr]) (log s)))
  ∨ (is_object (arr_dtype arr) = false ∧ indexable arr
     ∧ is_text (arr_dtype arr) = false
     ∧ accepts (file s) (dataset_of item arr) = false
     ∧ write_leaf accepts item arr s
       = Raised (ResourceFailure (ds_name (dataset_of item arr))) s).
Proof.
  unfold write_leaf, create_dataset, indexable.
  destruct (is_object (arr_dtype arr)); [by left |].
  destruct (first_dtype arr) as [dt0|] eqn:Efst; [| by right; left].
  pose proof (first_dtype_Some _ _ Efst) as ->.
  destruct (is_text (arr_dtype arr)); [by right; right; left |].
  destruct (accepts (file s) (dataset_of item arr)).
  - by right; right; right; left.
  - by right; right; right; right.
Qed.

Lemma run_prefix es s :
  let o := for_each (λ e, write_leaf accepts e.1 e.2) es s in
  ∃ pre post,
    es = pre ++ post
    ∧ file (state_of o) = file s ++ datasets_of pre
    ∧ log (state_of o) = log s ++ warnings_of pre
    ∧ Forall (λ e, is_object (arr_dtype e.2) = false → indexable e.2) pre
    ∧ stopped_at accepts o (file (state_of o)) post.
Proof.
  revert s. induction es as [|[k a] es IH]; intros s o.
  { exists [], []. subst o. simpl. by rewrite !app_nil_r. }
  subst o. cbn [for_each fst snd].
  destruct (write_leaf_cases k a s)
    as [(Eobj & ->) | [(Eobj & Efst & ->) | [(Eobj & Eidx & Etxt & ->)
       | [(Eobj & Eidx & Etxt & Eacc & ->) | (Eobj & Eidx & Etxt & Eacc & ->)]]]];
    cbn [bind state_of].
  - (* object: warn, delete, go on *)
    edestruct IH as (pre & post & -> & Hf & Hl & Hok & Hstop).
    exists ((k, a) :: pre), post. rewrite Hf, Hl. rewrite Hf in Hstop.
    cbn [file log] in *.
    rewrite datasets_of_cons, warnings_of_cons. unfold writable. simpl.
    rewrite Eobj. simpl. rewrite <- app_assoc. split_and!; try done.
    constructor; [simpl; congruence | done].
  - (* no first element *)
    exists [], ((k, a) :: es). cbn. rewrite !app_nil_r.
    split_and!; try done. exists k, a, es. auto.
  - (* text: pass *)
    edestruct IH as (pre & post & -> & Hf & Hl & Hok & Hstop).
    exists ((k, a) :: pre), post. rewrite Hf, Hl. rewrite Hf in Hstop.
    rewrite datasets_of_cons, warnings_of_cons. unfold writable. simpl.
    rewrite Eobj, Etxt. simpl. split_and!; try done.
    by constructor.
  - (* written *)
    edestruct IH as (pre & post & -> & Hf & Hl & Hok & Hstop).
    exists ((k, a) :: pre), post. rewrite Hf, Hl. rewrite Hf in Hstop.
    cbn [file log] in *.
    rewrite datasets_of_cons, warnings_of_cons. unfold writable. simpl.
    rewrite Eobj, Etxt. simpl. rewrite <- app_assoc in *.
    split_and!; try done.
    by constructor.
  - (* refused *)
    exists [], ((k, a) :: es). cbn. rewrite !app_nil_r.
    split_and!; try done. exists k, a, es.
    split_and!; try done. by right.
Qed.

End ExportLoop.

Section ExportFacts.

Import HDF5.

Variable accepts : h5file → dataset → bool.

Lemma for_each_app {A St} (body : A → St → outcome St) xs ys s :
  for_each body (xs ++ ys) s = for_each body xs s >>= for_each body ys.
Proof.
  revert s. induction xs as [|x xs IH]; intros s; [done |].
  simpl. destruct (body x s); simpl; [apply IH | done].
Qed.

Lemma In_datasets_of ds d :
  In ds (datasets_of d) →
  ∃ item arr, In (item, arr) d ∧ is_object (arr_dtype arr) = false
              ∧ is_text (arr_dtype arr) = false ∧ ds = dataset_of item arr.
Proof.
  unfold datasets_of. intros H. apply in_map_iff in H as ([item arr] & <- & H).
  apply filter_In in H as [Hin Hw]. unfold writable in Hw. simpl in Hw.
  apply andb_true_iff in Hw as [H1 H2].
  apply negb_true_iff in H1, H2. by exists item, arr.
Qed.

Lemma In_warnings_of r d :
  In r (warnings_of d) ↔
  ∃ item arr, In (item, arr) d ∧ is_object (arr_dtype arr) = true
              ∧ r = object_warning item.
Proof.
  unfold warnings_of. rewrite in_map_iff. split.
  - intros ([item arr] & <- & H). apply filter_In in H as [Hin Ho].
    by exists item, arr.
  - intros (item & arr & Hin & Ho & ->). exists (item, arr).
    split; [done |]. by apply filter_In.
Qed.

(** Whatever the outcome, the file holds datasets of handled entries
    only, and the log the warnings of handled entries only. *)
Lemma export_data_prefix d :
  NoDup (keys d) →
  let o := export_data accepts d in
  ∃ pre post,
    d = pre ++ post
    ∧ file (state_of o) = datasets_of pre
    ∧ log (state_of o) = warnings_of pre
    ∧ Forall (λ e, is_object (arr_dtype e.2) = false → indexable e.2) pre
    ∧ stopped_at accepts o (file (state_of o)) post.
Proof.
  intros Hnd o. subst o. rewrite export_data_entries by done.
  apply (run_prefix accepts d (mk_state d [] [])).
Qed.

Lemma export_data_returned d s :
  NoDup (keys d) → export_data accepts d = Returned s →
  file s = datasets_of d ∧ log s = warnings_of d.
Proof.
  intros Hnd Hret.
  destruct (export_data_prefix d Hnd) as (pre & post & -> & Hf & Hl & _ & Hstop).
  rewrite Hret in *. simpl in *. subst post. by rewrite app_nil_r.
Qed.

(** A step returns the look-ups of the other keys as it found them. *)
Lemma export_item_other item s s' k :
  export_item accepts item s = Returned s' → k ≠ item →
  getitem (flat s') k = getitem (flat s) k.
Proof.
  unfold export_item. destruct (getitem (flat s) item) as [arr|]; [| done].
  intros H Hne. destruct (write_leaf_flat _ _ _ _ _ H) as [-> | ->];
    [done | by apply getitem_delitem_ne].
Qed.

Lemma export_loop_other ks s s' k :
  for_each (export_item accepts) ks s = Returned s' → k ∉ ks →
  getitem (flat s') k = getitem (flat s) k.
Proof.
  revert s. induction ks as [|k0 ks IH]; intros s H Hk.
  - by injection H as ->.
  - simpl in H. apply not_elem_of_cons in Hk as [Hne Hk].
    destruct (export_item accepts k0 s) as [s1|] eqn:E; [| done].
    simpl in H. rewrite (IH _ H Hk). by eapply export_item_other.
Qed.

End ExportFacts.

(** ** The leaves [export_data] does not write *)

Section ExportClaims.

Import HDF5.

Variable accepts : h5file → dataset → bool.

Local Arguments String.append !s1 s2 : simpl nomatch.

Lemma is_text_Unicode n : is_text (Unicode n) = true.
Proof. unfold is_text. simpl. by destruct (decimal n). Qed.

Lemma str_app_inj_r s1 s2 t : s1 +:+ t = s2 +:+ t → s1 = s2.
Proof.
  revert s2. induction s1 as [|c s1 IH]; intros [|c2 s2] H; simpl in H.
  - done.
  - apply (f_equal String.length) in H. simpl in H.
    rewrite str_length_app in H. lia.
  - apply (f_equal String.length) in H. simpl in H.
    rewrite str_length_app in H. lia.
  - injection H as -> H. f_equal. by apply IH.
Qed.

Lemma object_warning_inj item item' :
  object_warning item = object_warning item' → item = item'.
Proof. unfold object_warning. intros [= H]. by apply str_app_inj_r in H. Qed.

Lemma In_keys_unique d item arr arr' :
  NoDup (keys d) → In (item, arr) d → In (item, arr') d → arr = arr'.
Proof.
  intros Hnd H1 H2. apply (getitem_In _ _ _ Hnd) in H1, H2. congruence.
Qed.

(** When the loop reaches an entry, the export is the dispatch on that
    leaf followed by the loop over the entries after it. *)
Lemma export_data_reach pre item arr post s1 :
  NoDup (keys (pre ++ (item, arr) :: post)) →
  for_each (export_item accepts) (keys pre)
           (mk_state (pre ++ (item, arr) :: post) [] []) = Returned s1 →
  export_data accepts (pre ++ (item, arr) :: post)
  = write_leaf accepts item arr s1
    >>= for_each (export_item accepts) (keys post).
Proof.
  intros Hnd Hpre. unfold export_data.
  replace (keys (pre ++ (item, arr) :: post))
    with (keys pre ++ item :: keys post) by (unfold keys; by rewrite map_app).
  rewrite for_each_app, Hpre. simpl.
  unfold export_item at 1.
  rewrite (export_loop_other _ _ _ _ item Hpre).
  - simpl flat. rewrite (getitem_In _ item arr); [done | exact Hnd |].
    apply in_app_iff. right. by left.
  - unfold keys in Hnd. rewrite map_app in Hnd.
    apply NoDup_app in Hnd as (_ & Hdisj & _).
    intros Hin. apply (Hdisj _ Hin). simpl. left.
Qed.


(** C2, amended: a leaf of fixed-width text dtype is never written and
    nothing is logged for it: every record of the log is the warning of
    an object leaf.  When the loop reaches a text leaf that is not empty,
    it goes on with the entries after it, file and log unchanged. *)
Theorem export_skips_text_leaves_silently d :
  NoDup (keys d) →
  let o := export_data accepts d in
  (∀ ds n, In ds (file (state_of o)) → ds_dtype ds ≠ Unicode n)
  ∧ (∀ r, In r (log (state_of o)) →
       ∃ item arr, In (item, arr) d ∧ is_object (arr_dtype arr) = true
                   ∧ r = object_warning item)
  ∧ (∀ item arr n, In (item, arr) d → arr_dtype arr = Unicode n →
       ¬ In (dataset_of item arr) (file (state_of o))
       ∧ ¬ In (object_warning item) (log (state_of o)))
  ∧ (∀ pre item arr post n m sh s1,
       d = pre ++ (item, arr) :: post →
       arr_dtype arr = Unicode n → arr_shape arr = S m :: sh →
       for_each (export_item accepts) (keys pre) (mk_state d [] []) = Returned s1 →
       o = for_each (export_item accepts) (keys post) s1).
Proof.
  intros Hnd o.
  destruct (export_data_prefix accepts d Hnd) as (pre & post & Hd & Hf & Hl & _).
  fold o in Hf, Hl.
  assert (Hfile : ∀ ds n, In ds (file (state_of o)) → ds_dtype ds ≠ Unicode n).
  { intros ds n Hin Hdt. rewrite Hf in Hin.
    apply In_datasets_of in Hin as (item & arr & _ & _ & Htxt & ->).
    simpl in Hdt. by rewrite Hdt, is_text_Unicode in Htxt. }
  assert (Hlog : ∀ r, In r (log (state_of o)) →
       ∃ item arr, In (item, arr) d ∧ is_object (arr_dtype arr) = true
                   ∧ r = object_warning item).
  { intros r Hin. rewrite Hl in Hin.
    apply In_warnings_of in Hin as (item & arr & Hin & Hobj & ->).
    exists item, arr. split_and!; [| done | done].
    rewrite Hd. apply in_app_iff. by left. }
  split_and!; [exact Hfile | exact Hlog | |].
  - intros item arr n Hin Hdt. split.
    + intros Hds. by apply (Hfile _ n Hds).
    + intros Hw. apply Hlog in Hw as (item' & arr' & Hin' & Hobj & Heq).
      apply object_warning_inj in Heq as <-.
      rewrite (In_keys_unique d item arr' arr Hnd Hin' Hin), Hdt in Hobj. done.
  - intros pre' item arr post' n m sh s1 -> Hdt Hsh Hpre. subst o.
    rewrite (export_data_reach _ _ _ _ _ Hnd Hpre).
    unfold write_leaf, first_dtype. by rewrite Hdt, Hsh, is_text_Unicode.
Qed.


End ExportClaims.

Section ExportExamples.

Import HDF5 Examples.


(** C2, as stated, fails: exporting a dictionary whose only leaf is a
    text array completes with an empty log. *)
Lemma text_leaf_has_no_diagnostic :
  ¬ (∀ accepts d, NoDup (keys d) →
       ∀ item arr n, In (item, arr) d → arr_dtype arr = Unicode n →
         ∃ r, In r (log (state_of (export_data accepts d)))).
Proof.
  intros H.
  destruct (H fresh_name text_only ltac:(vm_compute; compute_done)
              "net_01/pore.phase" phase_names 5%nat
              ltac:(by left) eq_refl) as [r Hr].
  vm_compute in Hr. exact Hr.
Qed.

Lemma export_skips_text_leaves_silently_witness :
  NoDup (keys mixed)
  ∧ ¬ In (dataset_of "net_01/pore.phase" phase_names)
         (file (state_of (export_data fresh_name mixed)))
  ∧ ¬ In (object_warning "net_01/pore.phase")
         (log (state_of (export_data fresh_name mixed))).
Proof.
  assert (Hnd : NoDup (keys mixed)) by (vm_compute; compute_done).
  destruct (export_skips_text_leaves_silently fresh_name mixed Hnd)
    as (_ & _ & H3 & _).
  split; [exact Hnd |].
  apply (H3 "net_01/pore.phase" phase_names 5%nat);
    [right; right; left; reflexivity | reflexivity].
Defined.


(** The export of [with_empty] stops at the empty leaf: the indexing
    error is raised, the first dataset stays in the file and the object
    leaf after it is never reached. *)
Example export_with_empty :
  export_data fresh_name with_empty
  = Raised IndexError
      (mk_state with_empty [dataset_of "net_01/pore.diameter" diameters] []).
Proof. reflexivity. Qed.

End ExportExamples.

(** ** The property transfer *)

Section Transfer.

Import Imported.

Lemma elem_of_props net k :
  k ∈ props net ↔
  ∃ arr, net !! k = Some arr ∧ is_bool (arr_dtype arr) = false.
Proof.
  unfold props. rewrite list_elem_of_fmap. split.
  - intros ([k' arr] & -> & H). apply elem_of_map_to_list in H.
    apply map_lookup_filter_Some in H as [H1 H2]. by exists arr.
  - intros (arr & H1 & H2). exists (k, arr). split; [done |].
    apply elem_of_map_to_list. by apply map_lookup_filter_Some.
Qed.

Lemma NoDup_props net : NoDup (props net).
Proof. apply NoDup_fst_map_to_list. Qed.

(** The loop moves the listed keys that are not excluded and leaves
    every other key where it was; it never raises as long as the listed
    keys are on the network. *)
Lemma transfer_loop ks w :
  NoDup ks → (∀ k, k ∈ ks → is_Some (network w !! k)) →
  ∃ w', for_each transfer_item ks w = Returned w'
    ∧ settings w' = settings w ∧ models w' = models w ∧ log w' = log w
    ∧ (∀ k, k ∈ ks → k ∉ exclude_props (settings w) →
         self w' !! k = network w !! k ∧ network w' !! k = None)
    ∧ (∀ k, ¬ (k ∈ ks ∧ k ∉ exclude_props (settings w)) →
         self w' !! k = self w !! k ∧ network w' !! k = network w !! k).
Proof.
  revert w. induction ks as [|k0 ks IH]; intros w Hnd Hin.
  { exists w. split_and!; try done. intros k Hk. by apply elem_of_nil in Hk. }
  apply NoDup_cons in Hnd as [Hk0 Hnd]. cbn [for_each].
  unfold transfer_item at 1. case_bool_decide as Hex.
  - (* excluded: nothing happens *)
    cbn [bind].
    destruct (IH w Hnd) as (w' & -> & Hs & Hm & Hl & Hmv & Hst).
    { intros k Hk. apply Hin. by right. }
    exists w'. split_and!; try done.
    + intros k Hk Hne. apply elem_of_cons in Hk as [-> | Hk]; [done |].
      by apply Hmv.
    + intros k Hk. apply Hst. intros [H1 H2]. apply Hk. split; [by right | done].
  - (* moved *)
    destruct (Hin k0 ltac:(by left)) as [arr Harr]. rewrite Harr. cbn [bind].
    set (w1 := mk_world _ _ _ _ _).
    destruct (IH w1 Hnd) as (w' & -> & Hs & Hm & Hl & Hmv & Hst).
    { intros k Hk. subst w1. cbn [network].
      rewrite lookup_delete_ne by (intros ->; done). apply Hin. by right. }
    exists w'. subst w1. cbn [network self settings models log] in *.
    split_and!; try done.
    + intros k Hk Hne. apply elem_of_cons in Hk as [-> | Hk].
      * destruct (Hst k0) as [H1 H2]; [by intros [? _] |].
        by rewrite H1, H2, lookup_insert_eq, lookup_delete_eq.
      * destruct (Hmv k Hk Hne) as [H1 H2].
        rewrite H1, H2, lookup_delete_ne by (intros ->; done). done.
    + intros k Hk.
      assert (k ≠ k0) by (intros ->; apply Hk; split; [by left | done]).
      destruct (Hst k) as [H1 H2].
      { intros [H3 H4]. apply Hk. split; [by right | done]. }
      by rewrite H1, H2, lookup_insert_ne, lookup_delete_ne.
Qed.

(** Lines 79-83 as a whole: the transfer returns, and it has moved
    exactly the properties outside the extended exclusion list. *)
Lemma transfer_spec st net :
  ∃ w1, transfer (GenericGeometry_init net st) = Returned w1
    ∧ after_transfer st net = w1
    ∧ settings w1 = mk_settings (pore_diameter st) (throat_diameter st)
                      (pore_shape st) (throat_shape st)
                      (exclude_props st ++ always_excluded)
    ∧ models w1 = ∅ ∧ log w1 = []
    ∧ (∀ k, k ∈ props net → k ∉ exclude_props st ++ always_excluded →
         self w1 !! k = net !! k ∧ network w1 !! k = None)
    ∧ (∀ k, ¬ (k ∈ props net ∧ k ∉ exclude_props st ++ always_excluded) →
         self w1 !! k = None ∧ network w1 !! k = net !! k).
Proof.
  unfold after_transfer, transfer.
  destruct (transfer_loop (props net)
              (extend_exclude (GenericGeometry_init net st)))
    as (w1 & Hrun & Hs & Hm & Hl & Hmv & Hst).
  { apply NoDup_props. }
  { intros k Hk. apply elem_of_props in Hk as (arr & Hk & _). by exists arr. }
  cbn in Hrun. exists w1. cbn. rewrite Hrun.
  split_and!; done.
Qed.

End Transfer.

(** ** The stages of the constructor *)

Section Stages.

Import Imported.

Variable has_attr : string → string → bool.

Lemma assign_diameter_spec canonical prefix setting w :
  ∃ w', assign_diameter canonical prefix setting w = Returned w'
    ∧ network w' = network w ∧ models w' = models w
    ∧ settings w' = settings w
    ∧ (∀ k, k ≠ canonical → self w' !! k = self w !! k)
    ∧ match self w !! canonical with
      | Some _ => w' = w
      | None =>
          match self w !! alias_key prefix setting with
          | Some arr => self w' !! canonical = Some arr ∧ log w' = log w
          | None =>
              self w' !! canonical = None
              ∧ log w' = log w ++ [alias_error (alias_key prefix setting) canonical]
          end
      end.
Proof.
  unfold assign_diameter.
  destruct (self w !! canonical) eqn:Ec; [by exists w |].
  destruct (self w !! alias_key prefix setting) eqn:Ea;
    eexists; (split; [reflexivity |]); cbn; split_and!; try done.
  - intros k Hk. by rewrite lookup_insert_ne.
  - by rewrite lookup_insert_eq.
Qed.

(** An array that is on the geometry stays as it is. *)
Lemma assign_diameter_keeps canonical prefix setting w w' k arr :
  assign_diameter canonical prefix setting w = Returned w' →
  self w !! k = Some arr → self w' !! k = Some arr.
Proof.
  intros Hrun Hk.
  destruct (assign_diameter_spec canonical prefix setting w)
    as (w'' & Hrun' & _ & _ & _ & Hother & Hcan).
  rewrite Hrun in Hrun'. injection Hrun' as <-.
  destruct (decide (k = canonical)) as [-> | Hne].
  - rewrite Hk in Hcan. by subst w'.
  - by rewrite Hother.
Qed.

Lemma assign_diameter_other canonical prefix setting w w' k :
  assign_diameter canonical prefix setting w = Returned w' →
  k ≠ canonical → self w' !! k = self w !! k.
Proof.
  intros Hrun Hne.
  destruct (assign_diameter_spec canonical prefix setting w)
    as (w'' & Hrun' & _ & _ & _ & Hother & _).
  rewrite Hrun in Hrun'. injection Hrun' as <-. by apply Hother.
Qed.

Lemma assign_diameter_frame canonical prefix setting w w' :
  assign_diameter canonical prefix setting w = Returned w' →
  network w' = network w ∧ models w' = models w ∧ settings w' = settings w.
Proof.
  intros Hrun.
  destruct (assign_diameter_spec canonical prefix setting w)
    as (w'' & Hrun' & Hn & Hm & Hs & _).
  rewrite Hrun in Hrun'. by injection Hrun' as <-.
Qed.

(** Registering the models touches the model registry only. *)
Lemma models_stage_frame w :
  let o := add_throat_length has_attr w >>= add_throat_volume has_attr
           >>= add_size_factors has_attr in
  network (state_of o) = network w ∧ self (state_of o) = self w
  ∧ log (state_of o) = log w ∧ settings (state_of o) = settings w.
Proof.
  unfold add_throat_length, add_throat_volume, add_size_factors,
    getattr_add_model, add_model.
  cbn. repeat (case_match; cbn); done.
Qed.

(** The first three stages always return; what is left of the
    constructor is the registration of the models. *)
Lemma init_stages st net :
  ∃ w1 w2 w3,
    transfer (GenericGeometry_init net st) = Returned w1
    ∧ after_transfer st net = w1
    ∧ assign_pore_diameter w1 = Returned w2
    ∧ assign_throat_diameter w2 = Returned w3
    ∧ Imported_init has_attr st net
      = add_throat_length has_attr w3 >>= add_throat_volume has_attr
        >>= add_size_factors has_attr.
Proof.
  destruct (transfer_spec st net) as (w1 & H1 & Hat & _).
  destruct (assign_diameter_spec "pore.diameter" "pore."
              (pore_diameter (settings w1)) w1) as (w2 & H2 & _).
  destruct (assign_diameter_spec "throat.diameter" "throat."
              (throat_diameter (settings w2)) w2) as (w3 & H3 & _).
  exists w1, w2, w3. split_and!; try done.
  unfold Imported_init, assign_pore_diameter, assign_throat_diameter.
  rewrite H1. cbn [bind]. rewrite H2. cbn [bind]. rewrite H3. done.
Qed.

(** The arrays of the network after the constructor are the ones the
    transfer left there. *)
Lemma init_network st net :
  network (state_of (Imported_init has_attr st net))
  = network (after_transfer st net).
Proof.
  destruct (init_stages st net) as (w1 & w2 & w3 & _ & -> & H2 & H3 & ->).
  destruct (models_stage_frame w3) as (-> & _).
  apply assign_diameter_frame in H2 as (H2 & _), H3 as (H3 & _).
  congruence.
Qed.

(** The transferred arrays are on the geometry after the constructor. *)
Lemma init_self_keeps st net k arr :
  self (after_transfer st net) !! k = Some arr →
  self (state_of (Imported_init has_attr st net)) !! k = Some arr.
Proof.
  destruct (init_stages st net) as (w1 & w2 & w3 & _ & -> & H2 & H3 & ->).
  destruct (models_stage_frame w3) as (_ & -> & _).
  intros Hk. eapply assign_diameter_keeps; [exact H3 |].
  eapply assign_diameter_keeps; [exact H2 | exact Hk].
Qed.

(** The constructor adds the two canonical diameters at most. *)
Lemma init_self_other st net k :
  k ≠ "pore.diameter" → k ≠ "throat.diameter" →
  self (state_of (Imported_init has_attr st net)) !! k
  = self (after_transfer st net) !! k.
Proof.
  destruct (init_stages st net) as (w1 & w2 & w3 & _ & -> & H2 & H3 & ->).
  destruct (models_stage_frame w3) as (_ & -> & _).
  intros Hp Ht.
  rewrite (assign_diameter_other _ _ _ _ _ k H3 Ht).
  apply (assign_diameter_other _ _ _ _ _ k H2 Hp).
Qed.

Lemma always_excluded_not_diameter k :
  k ∈ always_excluded → k ≠ "pore.diameter" ∧ k ≠ "throat.diameter".
Proof.
  unfold always_excluded. rewrite !elem_of_cons, elem_of_nil.
  intros [-> | [-> | [-> | []]]]; done.
Qed.

Lemma always_excluded_not_moved st k :
  k ∈ always_excluded → ¬ (k ∉ exclude_props st ++ always_excluded).
Proof. intros Hk Hn. apply Hn, elem_of_app. by right. Qed.

(** A key of the fixed exclusion list stays on the network and off the
    geometry. *)
Lemma init_always_excluded st net k :
  k ∈ always_excluded →
  network (state_of (Imported_init has_attr st net)) !! k = net !! k
  ∧ self (state_of (Imported_init has_attr st net)) !! k = None.
Proof.
  intros Hk.
  destruct (transfer_spec st net) as (w1 & _ & Hat & _ & _ & _ & _ & Hst).
  destruct (Hst k) as [Hs Hn].
  { intros [_ H]. by apply (always_excluded_not_moved st k). }
  destruct (always_excluded_not_diameter k Hk) as [Hp Ht].
  by rewrite init_network, init_self_other, Hat.
Qed.

(** A property outside the exclusion list ends on the geometry and is
    gone from the network. *)
Lemma init_moved st net k arr :
  net !! k = Some arr → is_bool (arr_dtype arr) = false →
  k ∉ exclude_props st ++ always_excluded →
  self (state_of (Imported_init has_attr st net)) !! k = Some arr
  ∧ network (state_of (Imported_init has_attr st net)) !! k = None.
Proof.
  intros Hk Hprop Hex.
  destruct (transfer_spec st net) as (w1 & _ & Hat & _ & _ & _ & Hmv & _).
  destruct (Hmv k) as [Hs Hn]; [apply elem_of_props; eauto | done |].
  split.
  - apply init_self_keeps. by rewrite Hat, Hs.
  - by rewrite init_network, Hat.
Qed.

End Stages.

(** ** What the constructor moves *)

Section TransferClaims.

Import Imported Examples.

(** C4, as stated, fails: with an empty [exclude_props], the property
    [pore.region_label] is not one of the two topology keys, and yet it
    is not moved. *)
Lemma region_label_not_moved :
  ¬ (∀ has_attr st net,
       exclude_props st = [] →
       ∀ k arr, net !! k = Some arr → is_bool (arr_dtype arr) = false →
         k ∉ ["pore.coords"; "throat.conns"] →
         self (state_of (Imported_init has_attr st net)) !! k = Some arr
         ∧ network (state_of (Imported_init has_attr st net)) !! k = None).
Proof.
  intros H.
  destruct (H sample_models default_settings extracted eq_refl
              "pore.region_label" labels eq_refl eq_refl) as [Hself _].
  - rewrite !not_elem_of_cons. split_and!; [done | done |].
    apply not_elem_of_nil.
  - vm_compute in Hself. discriminate Hself.
Qed.

(** C4, amended: with an empty [exclude_props], every property of the
    network outside the fixed exclusion list [pore.coords],
    [throat.conns], [pore.region_label] is on the geometry afterwards and
    gone from the network, and the three keys of that list stay on the
    network and off the geometry. *)
Theorem import_moves_properties has_attr st net :
  exclude_props st = [] →
  let w := state_of (Imported_init has_attr st net) in
  (∀ k arr, net !! k = Some arr → is_bool (arr_dtype arr) = false →
     k ∉ ["pore.coords"; "throat.conns"; "pore.region_label"] →
     self w !! k = Some arr ∧ network w !! k = None)
  ∧ (∀ k, k ∈ ["pore.coords"; "throat.conns"; "pore.region_label"] →
       network w !! k = net !! k ∧ self w !! k = None).
Proof.
  intros Hex w. split.
  - intros k arr Hk Hprop Hne. apply init_moved; [done | done |].
    by rewrite Hex.
  - intros k Hk. by apply init_always_excluded.
Qed.

Lemma import_moves_properties_witness :
  let w := state_of (Imported_init sample_models default_settings extracted) in
  (self w !! "pore.volume" = Some volumes ∧ network w !! "pore.volume" = None)
  ∧ (network w !! "pore.coords" = Some coords ∧ self w !! "pore.coords" = None).
Proof.
  destruct (import_moves_properties sample_models default_settings extracted
              eq_refl) as [Hmv Hst].
  split.
  - apply Hmv; [reflexivity | reflexivity |].
    rewrite !not_elem_of_cons. split_and!; [done | done | done |].
    apply not_elem_of_nil.
  - apply Hst. left.
Defined.

(** C8: whatever the network and the settings, [pore.region_label] is
    on the network after the constructor exactly as before, and it is
    not on the geometry. *)
Theorem region_label_never_transferred has_attr st net :
  let w := state_of (Imported_init has_attr st net) in
  network w !! "pore.region_label" = net !! "pore.region_label"
  ∧ self w !! "pore.region_label" = None.
Proof.
  apply init_always_excluded. unfold always_excluded.
  rewrite !elem_of_cons. auto.
Qed.

End TransferClaims.

(** ** The essential diameters *)

Section DiameterClaims.

Import Imported Examples.

Local Arguments String.append !s1 s2 : simpl nomatch.

Variable has_attr : string → string → bool.




End DiameterClaims.


(** ** The models of the derived properties *)

Section ModelFacts.

Import Imported.

Variable has_attr : string → string → bool.

(** The state in which the models are registered: no model yet, the
    shapes as configured, and the geometry as the transfer left it, the
    two canonical diameters apart. *)
Lemma init_models_stage st net :
  ∃ w3,
    Imported_init has_attr st net
    = add_throat_length has_attr w3 >>= add_throat_volume has_attr
      >>= add_size_factors has_attr
    ∧ models w3 = ∅
    ∧ throat_shape (settings w3) = throat_shape st
    ∧ shape_pair (settings w3) = shape_pair st
    ∧ (∀ k, k ≠ "pore.diameter" → k ≠ "throat.diameter" →
         self w3 !! k = self (after_transfer st net) !! k).
Proof.
  destruct (init_stages has_attr st net)
    as (w1 & w2 & w3 & Htr & Hat & H2 & H3 & Hinit).
  destruct (transfer_spec st net) as (w1' & Htr' & _ & Hset & Hm & _).
  rewrite Htr in Htr'. injection Htr' as <-.
  pose proof (assign_diameter_frame _ _ _ _ _ H2) as (_ & Hm2 & Hs2).
  pose proof (assign_diameter_frame _ _ _ _ _ H3) as (_ & Hm3 & Hs3).
  exists w3. rewrite Hat. split_and!.
  - exact Hinit.
  - congruence.
  - rewrite Hs3, Hs2, Hset. done.
  - unfold shape_pair. rewrite Hs3, Hs2, Hset. done.
  - intros k Hp Ht.
    rewrite (assign_diameter_other _ _ _ _ _ k H3 Ht).
    apply (assign_diameter_other _ _ _ _ _ k H2 Hp).
Qed.

(** What the constructor registers when it returns: the models of
    throat length and throat volume when the property did not come with
    the transfer, and the two size-factor models in every case.  No
    array is computed. *)
Lemma models_registered st net w :
  Imported_init has_attr st net = Returned w →
  let g := self (after_transfer st net) in
  models w !! "throat.length"
  = match g !! "throat.length" with
    | Some _ => None
    | None =>
        Some (mk_model (Callable "throat_length" (shape_pair st))
                [("throat_diameter", "throat.diameter");
                 ("pore_diameter", "pore.diameter")])
    end
  ∧ models w !! "throat.volume"
    = match g !! "throat.volume" with
      | Some _ => None
      | None =>
          Some (mk_model (Callable "throat_volume" (throat_shape st))
                  [("throat_length", "throat.length");
                   ("throat_diameter", "throat.diameter")])
      end
  ∧ models w !! "throat.diffusive_size_factors"
    = Some (mk_model (Callable "diffusive_size_factors" (shape_pair st)) [])
  ∧ models w !! "throat.hydraulic_size_factors"
    = Some (mk_model (Callable "hydraulic_size_factors" (shape_pair st)) [])
  ∧ (∀ k, k ≠ "pore.diameter" → k ≠ "throat.diameter" → self w !! k = g !! k).
Proof.
  destruct (init_models_stage st net) as (w3 & -> & Hm & Hts & Hsp & Hself).
  intros Hrun g. subst g.
  rewrite <- (Hself "throat.length"), <- (Hself "throat.volume") by done.
  unfold add_throat_length, add_throat_volume, add_size_factors,
    getattr_add_model, add_model in Hrun.
  rewrite ?Hsp, ?Hts in Hrun.
  repeat (case_match; cbn in Hrun; rewrite ?Hsp, ?Hts in Hrun);
    try discriminate; injection Hrun as <-; cbn; rewrite Hm;
    (split_and!; [by simplify_map_eq .. | exact Hself]).
Qed.

(** A model the constructor looks for and does not find is an
    [AttributeError] at the caller. *)
Lemma missing_model_raises st net :
  has_attr "diffusive_size_factors" (shape_pair st) = false
  ∨ has_attr "hydraulic_size_factors" (shape_pair st) = false
  ∨ (has_attr "throat_length" (shape_pair st) = false
     ∧ self (after_transfer st net) !! "throat.length" = None) →
  ∃ module attr w,
    Imported_init has_attr st net = Raised (AttributeError module attr) w
    ∧ has_attr module attr = false
    ∧ (attr = shape_pair st
       ∨ (module = "throat_volume" ∧ attr = throat_shape st)).
Proof.
  destruct (init_models_stage st net) as (w3 & -> & Hm & Hts & Hsp & Hself).
  rewrite <- (Hself "throat.length") by done.
  unfold add_throat_length, add_throat_volume, add_size_factors,
    getattr_add_model, add_model.
  rewrite ?Hsp, ?Hts. intros Hmiss.
  repeat (case_match; cbn; rewrite ?Hsp, ?Hts);
    try (eexists _, _, _; split_and!; [reflexivity | eassumption | tauto ]);
    destruct Hmiss as [Hmiss | [Hmiss | [Hmiss Hnone]]]; congruence.
Qed.

End ModelFacts.

Section ModelClaims.

Import Imported Examples.

(** C6: the model of a shape pair is looked up under
    [pore_shape + 's' + '_and_' + throat_shape + 's'].  When a module
    that is asked for that name does not define it, the constructor
    raises the [AttributeError] of the failed look-up and returns no
    geometry; when it returns, both size-factor modules defined the name
    and the registered models are the ones found under it. *)
Theorem shape_lookup_failure_is_raised has_attr st net :
  shape_pair st = (pore_shape st +:+ "s") +:+ "_and_" +:+ (throat_shape st +:+ "s")
  ∧ (has_attr "diffusive_size_factors" (shape_pair st) = false
     ∨ has_attr "hydraulic_size_factors" (shape_pair st) = false
     ∨ (has_attr "throat_length" (shape_pair st) = false
        ∧ self (after_transfer st net) !! "throat.length" = None) →
     ∃ module attr w,
       Imported_init has_attr st net = Raised (AttributeError module attr) w
       ∧ has_attr module attr = false
       ∧ (attr = shape_pair st
          ∨ (module = "throat_volume" ∧ attr = throat_shape st)))
  ∧ (∀ w, Imported_init has_attr st net = Returned w →
       has_attr "diffusive_size_factors" (shape_pair st) = true
       ∧ has_attr "hydraulic_size_factors" (shape_pair st) = true
       ∧ models w !! "throat.diffusive_size_factors"
         = Some (mk_model (Callable "diffusive_size_factors" (shape_pair st)) [])
       ∧ models w !! "throat.hydraulic_size_factors"
         = Some (mk_model (Callable "hydraulic_size_factors" (shape_pair st)) [])).
Proof.
  split; [reflexivity |]. split; [apply missing_model_raises |].
  intros w Hrun.
  destruct (models_registered has_attr st net w Hrun) as (_ & _ & Hd & Hh & _).
  split_and!; [| | exact Hd | exact Hh].
  - destruct (has_attr "diffusive_size_factors" (shape_pair st)) eqn:E; [done |].
    destruct (missing_model_raises has_attr st net) as (? & ? & ? & Hr & _);
      [by left | congruence].
  - destruct (has_attr "hydraulic_size_factors" (shape_pair st)) eqn:E; [done |].
    destruct (missing_model_raises has_attr st net) as (? & ? & ? & Hr & _);
      [by right; left | congruence].
Qed.

Lemma shape_lookup_failure_is_raised_witness :
  shape_pair sphere_cuboid = "spheres_and_cuboids"
  ∧ sample_models "diffusive_size_factors" (shape_pair sphere_cuboid) = false
  ∧ ∃ module attr w,
      Imported_init sample_models sphere_cuboid extracted
      = Raised (AttributeError module attr) w
      ∧ sample_models module attr = false
      ∧ (attr = shape_pair sphere_cuboid
         ∨ (module = "throat_volume" ∧ attr = throat_shape sphere_cuboid)).
Proof.
  split; [reflexivity |]. split; [reflexivity |].
  apply (shape_lookup_failure_is_raised sample_models sphere_cuboid extracted).
  left. reflexivity.
Defined.

Example shape_pair_default : shape_pair default_settings = "cones_and_cylinders".
Proof. reflexivity. Qed.

(** The look-up that fails for spheres and cuboids is the first one the
    constructor makes, for the throat length. *)
Example sphere_cuboid_raises :
  raised (Imported_init sample_models sphere_cuboid extracted)
  = Some (AttributeError "throat_length" "spheres_and_cuboids").
Proof. reflexivity. Qed.

(** C7 at a network whose extraction delivered
    [throat.diffusive_size_factors]: the property is on the geometry
    after the transfer, the constructor returns, and the model of that
    property is registered all the same, while no model is registered
    for a throat length that came with the transfer. *)
Theorem size_factor_model_registered_over_data :
  ∃ w, Imported_init sample_models default_settings extracted_with_factors
       = Returned w
    ∧ self (after_transfer default_settings extracted_with_factors)
        !! "throat.diffusive_size_factors" = Some factors
    ∧ self w !! "throat.diffusive_size_factors" = Some factors
    ∧ models w !! "throat.diffusive_size_factors"
      = Some (mk_model (Callable "diffusive_size_factors" "cones_and_cylinders") [])
    ∧ models (state_of (Imported_init sample_models default_settings
                          (<["throat.length" := lengths]> extracted)))
        !! "throat.length" = None.
Proof.
  eexists. split; [vm_compute; reflexivity |].
  split_and!; vm_compute; reflexivity.
Qed.

End ModelClaims.

(** ** The alias keys *)

Section AliasFacts.

Import PyStr Imported.

Local Arguments String.append !s1 s2 : simpl nomatch.

Lemma alias_key_prefixed c sep s :
  alias_key (String c sep) (String c sep +:+ s) = alias_key (String c sep) s.
Proof.
  unfold alias_key. f_equal. rewrite split_match.
  apply last_part_cons, split_go_nonempty.
Qed.

(** The alias key is the prefix joined to the whole setting when the
    setting does not hold the prefix, and otherwise to what follows an
    occurrence of the prefix and holds none. *)
Lemma alias_key_spec prefix s :
  prefix ≠ "" →
  (contains prefix s = false ∧ alias_key prefix s = prefix +:+ s)
  ∨ (∃ p r, s = p +:+ prefix +:+ r ∧ contains prefix r = false
            ∧ alias_key prefix s = prefix +:+ r).
Proof.
  intros Hne. unfold alias_key.
  destruct (split_last_spec prefix s Hne)
    as [[-> Hc] | (p & r & l & -> & _ & -> & Hc)].
  - by left.
  - right. exists p, r. by rewrite last_part_snoc.
Qed.

(** The occurrence of ["pore."] that a suffix without ["pore."] follows
    is the last one: ["pore."] does not overlap itself. *)
Lemma pore_occurrence_last p r p' r' :
  p +:+ "pore." +:+ r = p' +:+ "pore." +:+ r' →
  contains "pore." r = false →
  (String.length p' <= String.length p)%nat.
Proof.
  revert p'. induction p as [|c p IH]; intros p' Heq Hc.
  - destruct p' as [|c1 p']; [done |]. exfalso.
    simpl in Heq. injection Heq as <- Heq.
    do 4 (destruct p' as [|? p']; simpl in Heq; [discriminate Heq |];
          injection Heq as <- Heq).
    assert (contains "pore." r = true)
      by (rewrite Heq; apply (contains_app "pore." p' r')).
    congruence.
  - destruct p' as [|c1 p']; [simpl; lia |].
    simpl in Heq. injection Heq as <- Heq.
    simpl. apply le_n_S. by apply IH.
Qed.

Lemma throat_occurrence_last p r p' r' :
  p +:+ "throat." +:+ r = p' +:+ "throat." +:+ r' →
  contains "throat." r = false →
  (String.length p' <= String.length p)%nat.
Proof.
  revert p'. induction p as [|c p IH]; intros p' Heq Hc.
  - destruct p' as [|c1 p']; [done |]. exfalso.
    simpl in Heq. injection Heq as <- Heq.
    do 6 (destruct p' as [|? p']; simpl in Heq; [discriminate Heq |];
          injection Heq as <- Heq).
    assert (contains "throat." r = true)
      by (rewrite Heq; apply (contains_app "throat." p' r')).
    congruence.
  - destruct p' as [|c1 p']; [simpl; lia |].
    simpl in Heq. injection Heq as <- Heq.
    simpl. apply le_n_S. by apply IH.
Qed.

End AliasFacts.

(** ** Settings the constructor cannot tell apart *)

Section Simulation.

Import Imported.

Variable has_attr : string → string → bool.

Ltac open_sim H :=
  let Hn := fresh "Hn" in let Hs := fresh "Hs" in let Hm := fresh "Hm" in
  let Hl := fresh "Hl" in let Hp := fresh "Hp" in let Ht := fresh "Ht" in
  let Hps := fresh "Hps" in let Hts := fresh "Hts" in let Hex := fresh "Hex" in
  destruct H as (Hn & Hs & Hm & Hl & Hp & Ht & Hps & Hts & Hex).

Lemma sim_outcome_bind o o' k k' :
  sim_outcome o o' →
  (∀ w w', sim w w' → sim_outcome (k w) (k' w')) →
  sim_outcome (o >>= k) (o' >>= k').
Proof.
  destruct o, o'; unfold sim_outcome at 1; simpl; intros [Hr Hs] Hk;
    try discriminate Hr.
  - by apply Hk.
  - done.
Qed.

Lemma sim_for_each {A} (body : A → world → outcome world) xs :
  (∀ x w w', sim w w' → sim_outcome (body x w) (body x w')) →
  ∀ w w', sim w w' → sim_outcome (for_each body xs w) (for_each body xs w').
Proof.
  intros Hbody. induction xs as [|x xs IH]; intros w w' Hsim; simpl.
  - done.
  - apply sim_outcome_bind; [by apply Hbody | exact IH].
Qed.

Lemma sim_transfer_item item w w' :
  sim w w' → sim_outcome (transfer_item item w) (transfer_item item w').
Proof.
  intros Hsim. pose proof Hsim as Hsim'. open_sim Hsim'.
  unfold transfer_item. rewrite <- Hex, <- Hn.
  case_bool_decide; [done |].
  destruct (network w !! item); [| done].
  split; [done |]. unfold sim. cbn. rewrite Hn, Hs, Hm, Hl.
  split_and!; try done.
Qed.

Lemma sim_transfer w w' : sim w w' → sim_outcome (transfer w) (transfer w').
Proof.
  intros Hsim. pose proof Hsim as Hsim'. open_sim Hsim'.
  unfold transfer. cbn [extend_exclude network]. rewrite <- Hn.
  apply sim_for_each; [apply sim_transfer_item |].
  unfold sim, same_config. cbn. rewrite Hex. split_and!; done.
Qed.

Lemma sim_assign_diameter canonical prefix s s' w w' :
  alias_key prefix s = alias_key prefix s' → sim w w' →
  sim_outcome (assign_diameter canonical prefix s w)
              (assign_diameter canonical prefix s' w').
Proof.
  intros Hal Hsim. pose proof Hsim as Hsim'. open_sim Hsim'.
  unfold assign_diameter. rewrite <- Hal, <- Hs.
  destruct (self w !! canonical); [done |].
  destruct (self w !! alias_key prefix s);
    (split; [done |]); unfold sim; cbn; rewrite ?Hn, ?Hm, ?Hl;
    split_and!; done.
Qed.

Lemma sim_getattr_add_model module attr propname kw w w' :
  sim w w' →
  sim_outcome (getattr_add_model has_attr module attr propname kw w)
              (getattr_add_model has_attr module attr propname kw w').
Proof.
  intros Hsim. pose proof Hsim as Hsim'. open_sim Hsim'.
  unfold getattr_add_model, add_model.
  destruct (has_attr module attr); [| done].
  split; [done |]. unfold sim. cbn. rewrite Hm. split_and!; done.
Qed.

Lemma sim_shape_pair w w' :
  sim w w' → shape_pair (settings w) = shape_pair (settings w').
Proof. intros Hsim. open_sim Hsim. unfold shape_pair. by rewrite Hps, Hts. Qed.

(** The constructor reads the two diameter settings through their alias
    keys only. *)
Lemma init_sim st st' net :
  same_config st st' →
  sim_outcome (Imported_init has_attr st net) (Imported_init has_attr st' net).
Proof.
  intros Hcfg. unfold Imported_init.
  assert (H0 : sim (GenericGeometry_init net st) (GenericGeometry_init net st'))
    by (unfold sim; cbn; split_and!; done).
  apply sim_transfer in H0.
  repeat apply sim_outcome_bind.
  - exact H0.
  - intros w w' Hsim. pose proof Hsim as Hsim'. open_sim Hsim'.
    by apply sim_assign_diameter.
  - intros w w' Hsim. pose proof Hsim as Hsim'. open_sim Hsim'.
    by apply sim_assign_diameter.
  - intros w w' Hsim. unfold add_throat_length.
    pose proof Hsim as Hsim'. open_sim Hsim'.
    rewrite <- Hs, <- (sim_shape_pair w w' Hsim).
    destruct (self w !! "throat.length"); [done |].
    by apply sim_getattr_add_model.
  - intros w w' Hsim. unfold add_throat_volume.
    pose proof Hsim as Hsim'. open_sim Hsim'.
    rewrite <- Hs, <- Hts.
    destruct (self w !! "throat.volume"); [done |].
    by apply sim_getattr_add_model.
  - intros w w' Hsim. unfold add_size_factors. apply sim_outcome_bind.
    + rewrite <- (sim_shape_pair w w' Hsim). by apply sim_getattr_add_model.
    + clear w w' Hsim. intros w w' Hsim.
      rewrite <- (sim_shape_pair w w' Hsim). by apply sim_getattr_add_model.
Qed.

Lemma sim_result o o' : sim_outcome o o' → result o = result o'.
Proof.
  intros [Hr (Hn & Hs & Hm & Hl & _)]. unfold result.
  by rewrite Hr, Hn, Hs, Hm, Hl.
Qed.

End Simulation.

Section AliasClaims.

Import PyStr Imported Examples.

(** C9: the alias key of a diameter setting is the prefix joined to what
    follows the last occurrence of the prefix in the setting (to the
    whole setting when it holds none); a setting and the same setting
    with the prefix in front give one alias key, and the constructor
    gives one result for both.  For pores with ["pore."] and for throats
    with ["throat."]. *)
Theorem alias_key_prefix_normalized has_attr st net s :
  (alias_key "pore." ("pore." +:+ s) = alias_key "pore." s
   ∧ alias_key "throat." ("throat." +:+ s) = alias_key "throat." s)
  ∧ ((contains "pore." s = false ∧ alias_key "pore." s = "pore." +:+ s)
     ∨ ∃ p r, s = p +:+ "pore." +:+ r ∧ contains "pore." r = false
         ∧ alias_key "pore." s = "pore." +:+ r
         ∧ ∀ p' r', s = p' +:+ "pore." +:+ r' →
             (String.length p' <= String.length p)%nat)
  ∧ ((contains "throat." s = false ∧ alias_key "throat." s = "throat." +:+ s)
     ∨ ∃ p r, s = p +:+ "throat." +:+ r ∧ contains "throat." r = false
         ∧ alias_key "throat." s = "throat." +:+ r
         ∧ ∀ p' r', s = p' +:+ "throat." +:+ r' →
             (String.length p' <= String.length p)%nat)
  ∧ result (Imported_init has_attr (with_pore_diameter ("pore." +:+ s) st) net)
    = result (Imported_init has_attr (with_pore_diameter s st) net)
  ∧ result (Imported_init has_attr (with_throat_diameter ("throat." +:+ s) st) net)
    = result (Imported_init has_attr (with_throat_diameter s st) net).
Proof.
  split_and!.
  - apply alias_key_prefixed.
  - apply alias_key_prefixed.
  - destruct (alias_key_spec "pore." s) as [H | (p & r & -> & Hc & Hk)];
      [done | by left |].
    right. exists p, r. split_and!; try done.
    intros p' r' Heq. by eapply pore_occurrence_last.
  - destruct (alias_key_spec "throat." s) as [H | (p & r & -> & Hc & Hk)];
      [done | by left |].
    right. exists p, r. split_and!; try done.
    intros p' r' Heq. by eapply throat_occurrence_last.
  - apply sim_result, init_sim. unfold same_config. cbn.
    split_and!; try done. apply alias_key_prefixed.
  - apply sim_result, init_sim. unfold same_config. cbn.
    split_and!; try done. apply alias_key_prefixed.
Qed.

Example alias_key_default :
  alias_key "pore." "extended_diameter" = "pore.extended_diameter"
  ∧ alias_key "pore." "pore.extended_diameter" = "pore.extended_diameter"
  ∧ alias_key "throat." "net.throat.inscribed_diameter"
    = "throat.inscribed_diameter".
Proof. split_and!; reflexivity. Qed.

End AliasClaims.

Example split_dots : PyStr.split "." "net/pore.a.b" = ["net/pore"; "a"; "b"].
Proof. reflexivity. Qed.

Example split_pore : PyStr.split "pore." "pore.xpore.y" = [""; "x"; "y"].
Proof. reflexivity. Qed.

Example sanitize_dotted :
  HDF5.sanitize "net_01/pore.shape.factor" = "net_01/pore_shape_factor".
Proof. reflexivity. Qed.

(** ** The nested view of a file *)

Section PrintingFacts.

Import Printing.

Local Arguments String.append !s1 s2 : simpl nomatch.

(** Induction over a node and the members below it. *)
Lemma h5node_members_ind (P : h5node → Prop) :
  (∀ arr, P (H5Dataset arr)) →
  (∀ ms, Forall (λ m : string * h5node, P m.2) ms → P (H5Group ms)) →
  ∀ f, P f.
Proof.
  intros Hd Hg. fix IH 1. intros [arr | ms]; [apply Hd |].
  apply Hg.
  refine ((fix go (l : list (string * h5node))
             : Forall (λ m : string * h5node, P m.2) l :=
             match l with
             | [] => @List.Forall_nil _ _
             | (item, child) :: l' =>
                 @List.Forall_cons _ (λ m : string * h5node, P m.2)
                                   (item, child) l' (IH child) (go l')
             end) ms).
Qed.

Lemma print_level_group ms p indent :
  print_level (H5Group ms) p indent = print_members ms p indent.
Proof.
  revert p indent. induction ms as [|[item child] ms IH]; intros p indent.
  - reflexivity.
  - cbn [print_level print_members] in *. destruct child.
    + destruct (last_char indent); [apply IH | done].
    + destruct (first_char indent); [| done].
      match goal with |- context [match ?x with Returned _ => _ | Raised _ _ => _ end] =>
        destruct x end; [apply IH | done].
Qed.

Lemma unlines_app l1 l2 : unlines (l1 ++ l2) = unlines l1 +:+ unlines l2.
Proof.
  induction l1 as [|l l1 IH]; simpl; [done |].
  by rewrite IH, !str_app_assoc.
Qed.

Lemma last_char_nonempty c s : is_Some (last_char (String c s)).
Proof.
  revert c. induction s as [|c' s IH]; intros c; simpl; [by eexists |].
  apply IH.
Qed.

Lemma deeper_nonempty c s : ∃ c' s', deeper (String c s) = String c' s'.
Proof. unfold deeper. simpl. eauto. Qed.

Lemma listing_cons item child ms indent :
  listing (H5Group ((item, child) :: ms)) indent
  = listing (H5Group ms) indent
    ++ (indent +:+ item) :: listing child (deeper indent).
Proof.
  cbn [listing map rev]. rewrite concat_app. cbn [concat].
  by rewrite app_nil_r.
Qed.

(** With an indent that is not empty the loop never raises, and what it
    returns is the listing of the members in front of the text it was
    given. *)
Lemma print_members_listing ms :
  Forall (λ m : string * h5node,
            ∀ p c s, is_group m.2 →
              print_level m.2 p (String c s)
              = Returned (unlines (listing m.2 (String c s)) +:+ p)) ms →
  ∀ p c s,
    print_members ms p (String c s)
    = Returned (unlines (listing (H5Group ms) (String c s)) +:+ p).
Proof.
  induction 1 as [|[item child] ms Hchild _ IH]; intros p c s.
  - reflexivity.
  - rewrite listing_cons, unlines_app. cbn [print_members].
    destruct child as [arr | sub].
    + destruct (last_char_nonempty c s) as [c1 ->].
      assert (Hi : (if negb (Ascii.eqb c1 " ") then String c s +:+ "" else String c s)
                   = String c s) by (destruct (negb _); by rewrite ?str_app_empty_r).
      cbv zeta. rewrite Hi, IH. cbn [listing unlines].
      by rewrite !str_app_assoc.
    + cbn [first_char]. cbn [snd] in Hchild.
      change (String c s +:+ String c "") with (deeper (String c s)).
      destruct (deeper_nonempty c s) as (c' & s' & Hd). rewrite Hd.
      rewrite (Hchild p c' s' I), IH. cbn [unlines].
      by rewrite !str_app_assoc.
Qed.

Lemma print_level_listing f :
  ∀ p c s, is_group f →
    print_level f p (String c s)
    = Returned (unlines (listing f (String c s)) +:+ p).
Proof.
  induction f as [arr | ms IH] using h5node_members_ind; intros p c s Hg.
  - destruct Hg.
  - rewrite print_level_group. by apply print_members_listing.
Qed.

Lemma length_listing f indent : length (listing f indent) = descendants f.
Proof.
  revert indent. induction f as [arr | ms IH] using h5node_members_ind;
    intros indent; [done |].
  induction IH as [|[item child] ms Hc _ IHms].
  - reflexivity.
  - cbn [snd] in Hc. rewrite listing_cons, length_app.
    cbn [length descendants map list_sum] in *.
    rewrite IHms, (Hc (deeper indent)). unfold list_sum. simpl. lia.
Qed.

Lemma listing_app ms1 ms2 indent :
  listing (H5Group (ms1 ++ ms2)) indent
  = listing (H5Group ms2) indent ++ listing (H5Group ms1) indent.
Proof.
  cbn [listing]. by rewrite map_app, rev_app_distr, concat_app.
Qed.

End PrintingFacts.

Section PrintingClaims.

Import Printing Examples.

(** X1: called on a group with an indent that is not empty, [print_level]
    never raises; it returns the lines of the nested view in front of the
    text it was given, which it leaves as it is.  With the empty indent it
    raises the indexing error at the first member. *)
Theorem print_level_prepends ms c s :
  (∀ p, print_level (H5Group ms) p (String c s)
        = Returned (unlines (listing (H5Group ms) (String c s)) +:+ p))
  ∧ (∀ m ms' p, print_level (H5Group (m :: ms')) p "" = Raised IndexError p).
Proof.
  split.
  - intros p. by apply print_level_listing.
  - intros [item [arr | sub]] ms' p; reflexivity.
Qed.

(** X2: in nested mode [print_hdf5] on a file hands exactly one text to
    [print], with one line for each group and each dataset of the file;
    handed a dataset, it raises and prints nothing. *)
Theorem print_hdf5_nested visit ms :
  (∃ lines, print_hdf5 visit (H5Group ms) false = Returned [unlines lines]
            ∧ lines = listing (H5Group ms) "-"
            ∧ length lines = descendants (H5Group ms))
  ∧ (∀ arr, print_hdf5 visit (H5Dataset arr) false
            = Raised (AttributeError "Dataset" "keys") []).
Proof.
  split; [| done].
  exists (listing (H5Group ms) "-"). split_and!; [| done | apply length_listing].
  unfold print_hdf5. cbn [negb].
  rewrite (print_level_listing (H5Group ms) "" "-" "" I).
  by rewrite str_app_empty_r.
Qed.

(** X3: the members of a group are shown last to first: the view of a
    group is the view of its later members followed by the view of its
    earlier members. *)
Theorem print_level_reverses ms1 ms2 c s out1 out2 :
  print_level (H5Group ms1) "" (String c s) = Returned out1 →
  print_level (H5Group ms2) "" (String c s) = Returned out2 →
  print_level (H5Group (ms1 ++ ms2)) "" (String c s) = Returned (out2 +:+ out1).
Proof.
  rewrite !(print_level_listing (H5Group _) "" c s I), !str_app_empty_r.
  intros [= <-] [= <-]. by rewrite listing_app, unlines_app.
Qed.

Lemma print_level_reverses_witness :
  print_level sample_file "" "-"
  = Returned (("-sim_01" +:+ newline)
              +:+ ("-net_01" +:+ newline +:+ "--throat_length" +:+ newline
                   +:+ "--pore_diameter" +:+ newline)).
Proof.
  apply (print_level_reverses [("net_01", H5Group net_group)]
                              [("sim_01", H5Group [])] "-" "");
    reflexivity.
Defined.

End PrintingClaims.

(** ** More on the constructor *)

Section ConstructorFacts.

Import Imported.

Variable has_attr : string → string → bool.

Lemma init_settings st net :
  settings (state_of (Imported_init has_attr st net))
  = mk_settings (pore_diameter st) (throat_diameter st) (pore_shape st)
                (throat_shape st) (exclude_props st ++ always_excluded).
Proof.
  destruct (init_stages has_attr st net)
    as (w1 & w2 & w3 & Htr & _ & H2 & H3 & ->).
  destruct (models_stage_frame has_attr w3) as (_ & _ & _ & ->).
  destruct (transfer_spec st net) as (w1' & Htr' & _ & Hset & _).
  rewrite Htr in Htr'. injection Htr' as <-.
  apply assign_diameter_frame in H2 as (_ & _ & H2), H3 as (_ & _ & H3).
  congruence.
Qed.

(** What is on the stripped network is excluded or is no property. *)
Lemma stripped_props st net k :
  k ∈ props (network (state_of (Imported_init has_attr st net))) →
  k ∈ exclude_props st ++ always_excluded.
Proof.
  intros Hk. apply elem_of_props in Hk as (arr & Hk & Hb).
  destruct (transfer_spec st net) as (w1 & _ & Hat & _ & _ & _ & Hmv & Hst).
  rewrite init_network, Hat in Hk.
  destruct (decide (k ∈ exclude_props st ++ always_excluded)) as [|Hex]; [done |].
  exfalso. destruct (decide (k ∈ props net)) as [Hin | Hnin].
  - destruct (Hmv k Hin Hex) as [_ Hnone]. congruence.
  - destruct (Hst k) as [_ Hsame]; [by intros [? _] |].
    apply Hnin, elem_of_props. exists arr. by rewrite <- Hsame.
Qed.

End ConstructorFacts.

Section ConstructorClaims.

Import Imported.

Variable has_attr : string → string → bool.

(** X4: where the constructor leaves each array, for every exclusion
    list and whatever the outcome.  An array is on the network afterwards
    exactly when it was there before and is a label or has an excluded
    key; a key other than the two canonical diameters is on the geometry
    exactly when it was a property of the network with a key outside the
    caller's list and outside the three fixed keys.  So no array is lost,
    none is on both sides, and the network gains none. *)
Theorem import_places_each_key st net k arr :
  let w := state_of (Imported_init has_attr st net) in
  (network w !! k = Some arr ↔
     net !! k = Some arr
     ∧ ((is_bool (arr_dtype arr) = true) ∨ (k ∈ exclude_props st)
        ∨ (k ∈ always_excluded)))
  ∧ (k ≠ "pore.diameter" → k ≠ "throat.diameter" →
     (self w !! k = Some arr ↔
        (net !! k = Some arr) ∧ (is_bool (arr_dtype arr) = false)
        ∧ (k ∉ exclude_props st) ∧ (k ∉ always_excluded))).
Proof.
  intros w. subst w.
  destruct (transfer_spec st net) as (w1 & _ & Hat & _ & _ & _ & Hmv & Hst).
  rewrite init_network, Hat.
  assert (Hcase : (k ∈ props net ∧ k ∉ (exclude_props st ++ always_excluded))
                  ∨ ¬ (k ∈ props net ∧ k ∉ (exclude_props st ++ always_excluded)))
    by (destruct (decide (k ∈ props net ∧ k ∉ (exclude_props st ++ always_excluded)));
        auto).
  rewrite not_elem_of_app, elem_of_props in Hcase.
  split.
  - destruct Hcase as [((arr' & Hk & Hb) & Hex1 & Hex2) | Hn].
    + destruct (Hmv k) as [_ ->];
        [apply elem_of_props; eauto | by apply not_elem_of_app |].
      split; [done |]. intros (Hk' & [Hb' | [? | ?]]); [| done | done].
      congruence.
    + destruct (Hst k) as [_ ->].
      { rewrite not_elem_of_app, elem_of_props. exact Hn. }
      split.
      * intros Hk. split; [done |].
        destruct (is_bool (arr_dtype arr)) eqn:Hb; [by left | right].
        destruct (decide (k ∈ exclude_props st)); [by left |].
        destruct (decide (k ∈ always_excluded)); [by right |].
        exfalso. apply Hn. eauto.
      * by intros [Hk _].
  - intros Hp Ht. rewrite init_self_other, Hat by done.
    destruct Hcase as [((arr' & Hk & Hb) & Hex1 & Hex2) | Hn].
    + destruct (Hmv k) as [-> _];
        [apply elem_of_props; eauto | by apply not_elem_of_app |].
      split; [intros Hk'; split_and!; try done; congruence | by intros [? _]].
    + destruct (Hst k) as [-> _].
      { rewrite not_elem_of_app, elem_of_props. exact Hn. }
      split; [done |]. intros (Hk & Hb & H1 & H2). exfalso. apply Hn. eauto.
Qed.



(** X7: the constructor extends the exclusion list of the settings by the
    three fixed keys and leaves the other settings alone; and what it
    leaves on the network stays there: the transfer of a second
    construction on that network, with the same settings or with any
    settings that exclude at least as much, moves nothing. *)
Theorem second_transfer_moves_nothing st net st' :
  (∀ k, k ∈ exclude_props st → k ∈ exclude_props st') →
  let w := state_of (Imported_init has_attr st net) in
  settings w
  = mk_settings (pore_diameter st) (throat_diameter st) (pore_shape st)
                (throat_shape st) (exclude_props st ++ always_excluded)
  ∧ self (after_transfer st' (network w)) = ∅
  ∧ network (after_transfer st' (network w)) = network w.
Proof.
  intros Hsub w. split; [apply init_settings |].
  destruct (transfer_spec st' (network w))
    as (v1 & _ & -> & _ & _ & _ & Hmv & Hst).
  assert (Hnot : ∀ k, ¬ (k ∈ props (network w)
                         ∧ k ∉ (exclude_props st' ++ always_excluded))).
  { intros k [Hk Hex]. apply stripped_props in Hk.
    apply Hex. apply elem_of_app in Hk as [Hk | Hk]; apply elem_of_app; auto. }
  split; apply map_eq; intros k; destruct (Hst k (Hnot k)) as [Hs Hn].
  - by rewrite Hs, lookup_empty.
  - done.
Qed.

(** X8: what the registry of the geometry holds when the constructor
    returns.  A model for the throat length is registered exactly when the
    geometry holds no throat length, and it is the model of the shape
    pair; likewise for the throat volume, whose model is the one named by
    the throat shape alone; no model is registered under any name but
    these two and the two size factors.  Nothing is computed: a property
    whose model is registered is still absent from the geometry. *)
Theorem registered_models st net w :
  Imported_init has_attr st net = Returned w →
  (models w !! "throat.length"
   = match self w !! "throat.length" with
     | Some _ => None
     | None =>
         Some (mk_model (Callable "throat_length" (shape_pair st))
                 [("throat_diameter", "throat.diameter");
                  ("pore_diameter", "pore.diameter")])
     end)
  ∧ (models w !! "throat.volume"
     = match self w !! "throat.volume" with
       | Some _ => None
       | None =>
           Some (mk_model (Callable "throat_volume" (throat_shape st))
                   [("throat_length", "throat.length");
                    ("throat_diameter", "throat.diameter")])
       end)
  ∧ (∀ k, is_Some (models w !! k) →
       k ∈ ["throat.length"; "throat.volume";
            "throat.diffusive_size_factors"; "throat.hydraulic_size_factors"]).
Proof.
  intros Hrun.
  destruct (models_registered has_attr st net w Hrun) as (Hl & Hv & _ & _ & Hself).
  rewrite (Hself "throat.length"), (Hself "throat.volume") by done.
  split; [exact Hl |]. split; [exact Hv |].
  destruct (init_models_stage has_attr st net) as (w3 & Hinit & Hm & _).
  rewrite Hinit in Hrun.
  unfold add_throat_length, add_throat_volume, add_size_factors,
    getattr_add_model, add_model in Hrun.
  intros k Hk.
  repeat (case_match; cbn in Hrun); try discriminate Hrun;
    injection Hrun as <-; cbn in Hk; rewrite Hm in Hk;
    rewrite ?lookup_insert_is_Some, lookup_empty in Hk;
    rewrite !elem_of_cons;
    (repeat match goal with
       | H : _ ∨ _ |- _ => destruct H
       | H : _ ∧ _ |- _ => destruct H
       | H : is_Some None |- _ => by destruct H as [? ?]
       end); subst; auto 10.
Qed.

End ConstructorClaims.

Section ConstructorExamples.

Import Imported Examples.

Lemma import_places_each_key_witness :
  let w := state_of (Imported_init sample_models keep_volume extracted) in
  network w !! "pore.volume" = Some volumes
  ∧ network w !! "pore.all" = Some all_pores
  ∧ self w !! "pore.extended_diameter" = Some diameters.
Proof.
  intros w. split_and!.
  - apply (import_places_each_key sample_models keep_volume extracted).
    split; [reflexivity |]. right. left. by left.
  - apply (import_places_each_key sample_models keep_volume extracted).
    split; [reflexivity |]. by left.
  - apply (import_places_each_key sample_models keep_volume extracted);
      [done | done |].
    split_and!; [reflexivity | reflexivity | |].
    + unfold keep_volume. cbn [exclude_props]. rewrite !not_elem_of_cons.
      split; [done | apply not_elem_of_nil].
    + unfold always_excluded. rewrite !not_elem_of_cons.
      split_and!; [done | done | done | apply not_elem_of_nil].
Defined.

Lemma second_transfer_moves_nothing_witness :
  let w := state_of (Imported_init sample_models keep_volume extracted) in
  exclude_props (settings w)
  = ["pore.volume"; "pore.coords"; "throat.conns"; "pore.region_label"]
  ∧ self (after_transfer keep_volume (network w)) = ∅
  ∧ network (after_transfer keep_volume (network w)) = network w.
Proof.
  intros w.
  destruct (second_transfer_moves_nothing sample_models keep_volume extracted
              keep_volume (λ k H, H)) as (Hs & Hself & Hnet).
  split_and!; [| exact Hself | exact Hnet].
  fold w in Hs. rewrite Hs. reflexivity.
Defined.

Lemma registered_models_witness :
  let o := Imported_init sample_models default_settings
             (<["throat.length" := lengths]> extracted) in
  raised o = None
  ∧ models (state_of o) !! "throat.length" = None
  ∧ models (state_of o) !! "throat.volume"
    = Some (mk_model (Callable "throat_volume" "cylinder")
              [("throat_length", "throat.length");
               ("throat_diameter", "throat.diameter")]).
Proof.
  intros o. subst o.
  destruct (Imported_init sample_models default_settings
              (<["throat.length" := lengths]> extracted)) as [w | e w] eqn:E.
  - destruct (registered_models sample_models default_settings
                (<["throat.length" := lengths]> extracted) w E) as (Hl & Hv & _).
    cbn [state_of raised]. rewrite Hl, Hv.
    vm_compute in E. injection E as <-.
    split_and!; reflexivity.
  - vm_compute in E. discriminate E.
Defined.

End ConstructorExamples.

Section AliasExtras.

Import PyStr Imported.

(** X9: the alias key is a fixed point of the normalization: taken as
    the setting, it gives itself back. *)
Theorem alias_key_idempotent c sep s :
  alias_key (String c sep) (alias_key (String c sep) s)
  = alias_key (String c sep) s.
Proof.
  destruct (alias_key_spec (String c sep) s) as [[Hc Hk] | (p & r & _ & Hc & Hk)];
    [done | |]; rewrite Hk, alias_key_prefixed.
  - destruct (alias_key_spec (String c sep) s) as [[_ Hk'] | (p & r & -> & _ & _)];
      [done | by rewrite Hk' |].
    by rewrite contains_app in Hc.
  - destruct (alias_key_spec (String c sep) r) as [[_ Hk'] | (p' & r' & -> & _ & _)];
      [done | by rewrite Hk' |].
    by rewrite contains_app in Hc.
Qed.

End AliasExtras.

(** ** More on the exporter *)

Section SanitizeExtras.

Import PyStr HDF5.

Local Arguments String.append !s1 s2 : simpl nomatch.

Lemma dot_to_underscore_not_dot c : Ascii.eqb "." (dot_to_underscore c) = false.
Proof.
  unfold dot_to_underscore. destruct (Ascii.eqb_spec c ".") as [-> | Hne].
  - reflexivity.
  - apply Ascii.eqb_neq. congruence.
Qed.

Lemma dot_to_underscore_idem c :
  dot_to_underscore (dot_to_underscore c) = dot_to_underscore c.
Proof.
  unfold dot_to_underscore. destruct (Ascii.eqb c ".") eqn:E.
  - reflexivity.
  - by rewrite E.
Qed.

Lemma dot_to_underscore_slash c :
  Ascii.eqb "/" (dot_to_underscore c) = Ascii.eqb "/" c.
Proof.
  unfold dot_to_underscore. destruct (Ascii.eqb_spec c ".") as [-> | Hne].
  - reflexivity.
  - reflexivity.
Qed.

Lemma rev_string_map f cur :
  rev_string (map f cur) = map_chars f (rev_string cur).
Proof.
  induction cur as [|c cur IH]; [done |].
  cbn [map]. rewrite !rev_string_cons, map_chars_app, IH. done.
Qed.

Lemma split_go_slash cur s :
  split_go "/" 0 (map dot_to_underscore cur) (map_chars dot_to_underscore s)
  = map (map_chars dot_to_underscore) (split_go "/" 0 cur s).
Proof.
  revert cur. induction s as [|c s IH]; intros cur.
  - cbn. by rewrite rev_string_map.
  - cbn [map_chars split_go startswith]. rewrite dot_to_underscore_slash.
    destruct (Ascii.eqb "/" c).
    + cbn [String.length Nat.sub map].
      by rewrite rev_string_map, <- (IH []).
    + apply (IH (c :: cur)).
Qed.

Lemma sanitize_no_dot s : contains "." (sanitize s) = false.
Proof.
  rewrite sanitize_chars. induction s as [|c s IH]; [done |].
  cbn [map_chars]. by rewrite contains_char_cons, dot_to_underscore_not_dot, IH.
Qed.

(** X10: the sanitized name holds no ['.'], has the length of the path,
    and is the path itself exactly when the path holds no ['.'];
    sanitizing twice changes nothing more. *)
Theorem sanitize_removes_dots s :
  contains "." (sanitize s) = false
  ∧ String.length (sanitize s) = String.length s
  ∧ sanitize (sanitize s) = sanitize s
  ∧ (sanitize s = s ↔ contains "." s = false).
Proof.
  pose proof (sanitize_no_dot s) as H1.
  rewrite !sanitize_chars in *.
  split_and!.
  - exact H1.
  - clear H1. induction s as [|c s IH]; [done |]. simpl. by rewrite IH.
  - clear H1. induction s as [|c s IH]; [done |].
    cbn [map_chars]. by rewrite dot_to_underscore_idem, IH.
  - split; [intros <-; exact H1 | apply map_chars_id].
Qed.

(** X11: sanitizing keeps the hierarchy of a path: the segments between
    the [/] of the sanitized name are the sanitized segments of the
    path. *)
Theorem sanitize_keeps_segments s :
  split "/" (sanitize s) = map sanitize (split "/" s).
Proof.
  rewrite sanitize_chars. unfold split.
  transitivity (map (map_chars dot_to_underscore) (split_go "/" 0 [] s));
    [apply (split_go_slash [] s) |].
  apply map_ext. intros t. by rewrite sanitize_chars.
Qed.

End SanitizeExtras.

Section ExportExtras.

Import PyStr HDF5.

Local Arguments String.append !s1 s2 : simpl nomatch.

Variable accepts : h5file → dataset → bool.

(** X12: whatever the outcome, every dataset of the file is named by
    [/] followed by a name without ['.'], and it carries the shape, the
    element type and the data of a leaf of the dictionary that is neither
    of object nor of text type and has a first element. *)
Theorem export_dataset_names d ds :
  NoDup (keys d) →
  In ds (file (state_of (export_data accepts d))) →
  ∃ item arr,
    In (item, arr) d
    ∧ ds_name ds = "/" +:+ sanitize item
    ∧ contains "." (sanitize item) = false
    ∧ ds_shape ds = arr_shape arr ∧ ds_dtype ds = arr_dtype arr
    ∧ ds_data ds = arr_data arr
    ∧ is_object (arr_dtype arr) = false ∧ is_text (arr_dtype arr) = false
    ∧ indexable arr.
Proof.
  intros Hnd Hin.
  destruct (export_data_prefix accepts d Hnd) as (pre & post & -> & Hf & _ & Hok & _).
  rewrite Hf in Hin.
  apply In_datasets_of in Hin as (item & arr & Hin & Hobj & Htxt & ->).
  exists item, arr. split_and!; try done.
  - apply in_app_iff. by left.
  - apply sanitize_no_dot.
  - rewrite Forall_forall in Hok.
    by apply (Hok (item, arr)); [apply list_elem_of_In |].
Qed.

(** X13: with a storage layer that accepts every dataset, the export
    returns exactly when every leaf that is not of object type has a first
    element; the file then holds one dataset for each leaf that is neither
    of object nor of text type, in the order of the dictionary, and the
    log one warning for each object leaf. *)
Theorem export_returns_iff d :
  NoDup (keys d) →
  (∀ f ds, accepts f ds = true) →
  ((∃ s, export_data accepts d = Returned s) ↔
     ∀ item arr, In (item, arr) d → is_object (arr_dtype arr) = false →
       indexable arr)
  ∧ (∀ s, export_data accepts d = Returned s →
       file s = datasets_of d ∧ log s = warnings_of d).
Proof.
  intros Hnd Hacc.
  split; [| intros s Hs; apply (export_data_returned accepts d s Hnd Hs)].
  destruct (export_data_prefix accepts d Hnd)
    as (pre & post & Hd & _ & _ & Hok & Hstop).
  split.
  - intros [s Hs] item arr Hin Hobj. rewrite Hs in Hstop. simpl in Hstop.
    subst post. rewrite app_nil_r in Hd. subst pre.
    rewrite Forall_forall in Hok.
    by apply (Hok (item, arr)); [apply list_elem_of_In |].
  - intros Hall. destruct (export_data accepts d) as [s | e s]; [by exists s |].
    exfalso. simpl in Hstop.
    destruct Hstop as (k & a & post' & -> & Hobj & [[_ Hbad] | (_ & _ & _ & Hno)]).
    + assert (Hi : indexable a).
      { apply (Hall k); [| done]. rewrite Hd. apply in_app_iff. right. by left. }
      unfold indexable in Hi. congruence.
    + by rewrite Hacc in Hno.
Qed.

(** X14: an export that raises leaves the file partly written: the file
    holds the datasets, and the log the warnings, of the entries before
    the one that raised, and nothing of the entries after it.  The entry
    that raised is not of object type; it has no first element, or the
    storage layer refused its dataset. *)
Theorem export_failure_is_partial d e s :
  NoDup (keys d) →
  export_data accepts d = Raised e s →
  ∃ pre item arr post,
    d = pre ++ (item, arr) :: post
    ∧ file s = datasets_of pre ∧ log s = warnings_of pre
    ∧ is_object (arr_dtype arr) = false
    ∧ ((e = IndexError ∧ first_dtype arr = None)
       ∨ (e = ResourceFailure ("/" +:+ sanitize item)
          ∧ accepts (datasets_of pre) (dataset_of item arr) = false)).
Proof.
  intros Hnd Hrun.
  destruct (export_data_prefix accepts d Hnd)
    as (pre & post & Hd & Hf & Hl & _ & Hstop).
  rewrite Hrun in Hf, Hl, Hstop. simpl in Hf, Hl, Hstop.
  destruct Hstop as (k & a & post' & -> & Hobj & Hwhy).
  exists pre, k, a, post'. split_and!; try done.
  destruct Hwhy as [? | (-> & _ & _ & Hno)]; [by left | right].
  by rewrite Hf in Hno.
Qed.

End ExportExtras.

Section DtypeExtras.

Import PyStr HDF5.

Local Arguments String.append !s1 s2 : simpl nomatch.

Lemma no_U_in_digits u : contains "U" (NilEmpty.string_of_uint u) = false.
Proof.
  induction u as [|u IHu|u IHu|u IHu|u IHu|u IHu|u IHu|u IHu|u IHu|u IHu|u IHu];
    [done | ..]; simpl; rewrite IHu; reflexivity.
Qed.

Lemma no_U_in_decimal n : contains "U" (decimal n) = false.
Proof.
  unfold decimal, NilZero.string_of_uint.
  destruct (Nat.to_uint n) eqn:E; [done | ..]; rewrite <- E; apply no_U_in_digits.
Qed.

(** X15: the test ['U' in str(dtype)] singles out the fixed-width text
    types and no other element type: byte strings and unsigned integers
    are not taken for text. *)
Theorem is_text_iff_unicode dt :
  is_text dt = true ↔ ∃ n, dt = Unicode n.
Proof.
  split.
  - destruct dt; try discriminate; [| by eexists].
    unfold is_text. simpl. rewrite no_U_in_decimal. discriminate.
  - intros [n ->]. unfold is_text. simpl. by destruct (decimal n).
Qed.

End DtypeExtras.

Section ExportExtrasExamples.

Import HDF5 Examples.

Lemma export_dataset_names_witness :
  ∃ item arr,
    In (item, arr) mixed
    ∧ "/net_01/throat_length" = "/" +:+ sanitize item
    ∧ arr_dtype lengths = arr_dtype arr ∧ arr_data lengths = arr_data arr.
Proof.
  destruct (export_dataset_names fresh_name mixed
              (dataset_of "net_01/throat.length" lengths)
              ltac:(vm_compute; compute_done)
              ltac:(vm_compute; right; left; reflexivity))
    as (item & arr & Hin & Hname & _ & _ & Hdt & Hdata & _).
  exists item, arr. split_and!; [exact Hin | exact Hname | exact Hdt | exact Hdata].
Defined.

Lemma export_returns_iff_witness :
  ∃ s, export_data (λ _ _, true) mixed = Returned s
       ∧ file s = [dataset_of "net_01/pore.diameter" diameters;
                   dataset_of "net_01/throat.length" lengths]
       ∧ log s = [object_warning "net_01/pore.info"].
Proof.
  destruct (export_returns_iff (λ _ _, true) mixed
              ltac:(vm_compute; compute_done) (λ _ _, eq_refl))
    as [Hiff Hres].
  destruct (proj2 Hiff) as [s Hs].
  - intros item arr Hin Hobj.
    destruct Hin as [[= <- <-] | [[= <- <-] | [[= <- <-] | [[= <- <-] | []]]]];
      first [discriminate Hobj | reflexivity].
  - exists s. split; [exact Hs |]. apply (Hres s Hs).
Defined.

Lemma export_failure_is_partial_witness :
  ∃ pre item arr post,
    with_empty = pre ++ (item, arr) :: post
    ∧ file (state_of (export_data fresh_name with_empty)) = datasets_of pre
    ∧ log (state_of (export_data fresh_name with_empty)) = warnings_of pre.
Proof.
  destruct (export_failure_is_partial fresh_name with_empty IndexError
              (mk_state with_empty [dataset_of "net_01/pore.diameter" diameters] [])
              ltac:(vm_compute; compute_done) eq_refl)
    as (pre & item & arr & post & Hd & Hf & Hl & _).
  exists pre, item, arr, post. split_and!; [exact Hd | exact Hf | exact Hl].
Defined.

End ExportExtrasExamples.
